(** * Face recognition service: matching rule, recognition pipeline, model cache

  A shallow embedding of [app.py]: the nearest-neighbour rule of
  [reconocer_persona], the per-face loop of [reconocer], the lazy getters
  [get_detector] / [get_embedder] / [get_database] and the background
  preloader [load_models]; and of the enrolment script
  [create_database.py].

  Conventions.
  - A Python float is an IEEE binary64 value: [spec_float] with precision 53
    and maximal exponent 1024; [<] on floats is [SFltb].
  - A Python [int] is a [Z].
  - A raised exception is [None] in the error monad; [try/except] is a
    [match] on the option.
  - The embedding database is a Python dict iterated in insertion order: an
    association list.
  - The detector, the embedder, [cv2.resize], the loaders and the request
    decoding are external: they are the fields of [Cache.Env].
  - [cache_lock] makes the body of a getter and each locked block of
    [load_models] atomic: a run of the process is a sequence of them. *)

From Stdlib Require Import ZArith List Bool String Ascii Lia.
From Stdlib Require Import SpecFloat PrimFloat FloatOps.
Import ListNotations.

Local Open Scope Z_scope.

(** ** Error monad: exceptions as [None] *)

Definition bind {A B : Type} (m : option A) (k : A -> option B) : option B :=
  match m with
  | Some a => k a
  | None => None
  end.

Notation "x <- m ;; k" := (bind m (fun x => k))
  (at level 61, m at next level, right associativity).

(** ** Binary64 floats *)

Module Flt.

Definition float : Type := spec_float.

Definition prec : Z := 53.
Definition emax : Z := 1024.

(** [float("inf")] *)
Definition inf : float := S754_infinity false.
Definition zero : float := S754_zero false.

Definition ltb : float -> float -> bool := SFltb.
Definition add : float -> float -> float := SFadd prec emax.
Definition sub : float -> float -> float := SFsub prec emax.
Definition mul : float -> float -> float := SFmul prec emax.
Definition sqrt : float -> float := SFsqrt prec emax.

Definition is_nan (x : float) : bool :=
  match x with
  | S754_nan => true
  | _ => false
  end.

(** A number, as opposed to an infinity or a NaN. *)
Definition is_real (x : float) : bool :=
  match x with
  | S754_zero _ | S754_finite _ _ _ => true
  | _ => false
  end.

Definition is_zero (x : float) : bool :=
  match x with
  | S754_zero _ => true
  | _ => false
  end.

Definition is_inf (x : float) : bool :=
  match x with
  | S754_infinity false => true
  | _ => false
  end.

(** The default of the parameter [umbral]: the binary64 value nearest to
    [0.8], which is what the literal denotes. *)
Definition umbral_default : float := Eval vm_compute in Prim2SF 0x1.999999999999ap-1%float.

(** The position of a float on the extended line, as a triple compared
    lexicographically; [SFcompare] is that comparison. A NaN has none. *)
Definition rank (x : float) : option (Z * Z * Z) :=
  match x with
  | S754_nan => None
  | S754_infinity true => Some (-2, 0, 0)
  | S754_infinity false => Some (2, 0, 0)
  | S754_zero _ => Some (0, 0, 0)
  | S754_finite false m e => Some (1, e, Z.pos m)
  | S754_finite true m e => Some (-1, - e, Z.neg m)
  end.

Definition lex_lt (a b : Z * Z * Z) : Prop :=
  let '(a1, a2, a3) := a in
  let '(b1, b2, b3) := b in
  a1 < b1 \/ (a1 = b1 /\ (a2 < b2 \/ (a2 = b2 /\ a3 < b3))).

Definition rank_lt (x y : float) : Prop :=
  match rank x, rank y with
  | Some a, Some b => lex_lt a b
  | _, _ => False
  end.

End Flt.

(** ** The nearest-neighbour rule of [reconocer_persona]

  The loop over [base_datos.items()] and over each [emb_list], for any
  implementation of [norm(embedding - emb_base)]. *)

Section MatchEngine.

Import Flt.

Variable Emb : Type.

(** [norm(embedding - emb_base)]; [None] when numpy raises. *)
Variable norm_sub : Emb -> Emb -> option float.

(** [base_datos]: identity label to its reference embeddings, in the
    iteration order of the dict. *)
Definition Store : Type := list (string * list Emb).

(** The pair [(nombre_identificado, distancia_minima)]. *)
Definition best : Type := (string * float)%type.

Definition desconocido : best := ("Desconocido"%string, inf).

(** The body of the inner loop, once [d] is computed. *)
Definition update (umbral : float) (b : best) (nombre : string) (d : float)
  : best :=
  if ltb d (snd b) && ltb d umbral then (nombre, d) else b.

(** [for emb_base in emb_list: ...] *)
Fixpoint scan_embs (umbral : float) (embedding : Emb) (nombre : string)
    (emb_list : list Emb) (b : best) : option best :=
  match emb_list with
  | [] => Some b
  | emb_base :: rest =>
      d <- norm_sub embedding emb_base ;;
      scan_embs umbral embedding nombre rest (update umbral b nombre d)
  end.

(** [for nombre, emb_list in base_datos.items(): ...] *)
Fixpoint scan_store (umbral : float) (embedding : Emb) (items : Store)
    (b : best) : option best :=
  match items with
  | [] => Some b
  | (nombre, emb_list) :: rest =>
      b' <- scan_embs umbral embedding nombre emb_list b ;;
      scan_store umbral embedding rest b'
  end.

(** The block under [# Find closest match], up to the [return]. *)
Definition closest_match (umbral : float) (embedding : Emb)
    (base_datos : Store) : option best :=
  scan_store umbral embedding base_datos desconocido.

(** Every reference embedding of every identity, labelled, in iteration
    order. *)
Definition references (base_datos : Store) : list (string * Emb) :=
  flat_map (fun item => map (fun e => (fst item, e)) (snd item)) base_datos.

(** The distances of the references, when every one of them is computed. *)
Fixpoint distances (embedding : Emb) (refs : list (string * Emb))
  : option (list (string * float)) :=
  match refs with
  | [] => Some []
  | (nombre, emb_base) :: rest =>
      d <- norm_sub embedding emb_base ;;
      ds <- distances embedding rest ;;
      Some ((nombre, d) :: ds)
  end.

Definition step (umbral : float) (b : best) (c : string * float) : best :=
  update umbral b (fst c) (snd c).

(** What a scan of the candidates [cands] establishes of its result [r]:
    nothing was below the threshold and [r] is the initial pair, or [r] is a
    candidate below the threshold such that every earlier candidate below
    the threshold is strictly farther and no later candidate is strictly
    nearer. *)
Definition scanned (umbral : float) (cands : list (string * float))
    (r : best) : Prop :=
  (r = desconocido /\
   forall c, In c cands -> ltb (snd c) umbral = false) \/
  (exists pre post,
     cands = pre ++ r :: post /\
     ltb (snd r) umbral = true /\
     (forall c, In c pre -> ltb (snd c) umbral = true ->
                ltb (snd r) (snd c) = true) /\
     (forall c, In c post -> ltb (snd c) (snd r) = false)).

(** The running best is the initial pair, or its distance is not [inf]. *)
Definition settled (b : best) : Prop :=
  b = desconocido \/ is_inf (snd b) = false.

End MatchEngine.

Arguments Store Emb : clear implicits.
Arguments scan_embs {Emb} norm_sub umbral embedding nombre emb_list b.
Arguments scan_store {Emb} norm_sub umbral embedding items b.
Arguments closest_match {Emb} norm_sub umbral embedding base_datos.
Arguments references {Emb} base_datos.
Arguments distances {Emb} norm_sub embedding refs.
Arguments update umbral b nombre d : simpl never.

(** ** numpy on one-dimensional float arrays *)

Module Np.

Import Flt.

(** A one-dimensional array of floats: an embedding. *)
Definition vec : Type := list float.

Fixpoint zip_sub (a b : vec) : vec :=
  match a, b with
  | x :: a', y :: b' => Flt.sub x y :: zip_sub a' b'
  | _, _ => []
  end.

(** [a - b]. Shapes [(n,)] and [(m,)] broadcast when [n = m] or when one of
    them is 1; otherwise numpy raises [ValueError]. *)
Definition subtract (a b : vec) : option vec :=
  if (List.length a =? List.length b)%nat then Some (zip_sub a b)
  else
    match a, b with
    | [x], _ => Some (map (fun y => Flt.sub x y) b)
    | _, [y] => Some (map (fun x => Flt.sub x y) a)
    | _, _ => None
    end.

(** [x.dot(x)], accumulated from the left, each product and each sum
    rounded once. numpy hands this sum to BLAS, which may fuse a product
    with its sum or add in another order, so the last bit of a distance can
    differ from the one computed here. *)
Definition sqnorm (x : vec) : float :=
  fold_left (fun acc xi => Flt.add acc (Flt.mul xi xi)) x zero.

(** [numpy.linalg.norm] of a one-dimensional real array: the square root of
    [x.dot(x)]. *)
Definition norm (x : vec) : float := Flt.sqrt (sqnorm x).

(** [norm(embedding - emb_base)] *)
Definition norm_sub (embedding emb_base : vec) : option float :=
  x <- subtract embedding emb_base ;;
  Some (norm x).

Definition all_real (x : vec) : bool := forallb is_real x.

(** Every vector of the store has [n] components. *)
Definition same_dim (n : nat) (base_datos : Store vec) : bool :=
  forallb (fun item => forallb (fun e => (List.length e =? n)%nat) (snd item))
    base_datos.

End Np.

(** ** Images as numpy arrays *)

Module Img.

(** The element type of an array, for the types that [np.array] gives to a
    Pillow image: [bool] for mode 1, [uint8] for the modes L, P, RGB and
    RGBA, [uint16] for I;16, [int32] for I and [float32] for F. *)
Inductive numpy_dtype : Type :=
| np_bool
| np_uint8
| np_uint16
| np_int32
| np_float32.

(** An array of shape [(rows, cols)] when [chans] is [None] and of shape
    [(rows, cols, c)] when it is [Some c]; [pix r c k] is the element at
    row [r], column [c], channel [k] (channel 0 for a two-dimensional
    array). An element is given as an integer: its value for the integer
    types, 0 or 1 for [bool], its bit pattern for [float32]; the operations
    below move elements and compute nothing on them. *)
Record ndarray : Type := mk_ndarray {
  rows : nat;
  cols : nat;
  chans : option nat;
  dtype : numpy_dtype;
  pix : nat -> nat -> nat -> Z
}.

Definition ndim (a : ndarray) : Z :=
  match chans a with
  | None => 2
  | Some _ => 3
  end.

(** [arr.shape[0]] and [arr.shape[1]] *)
Definition shape0 (a : ndarray) : Z := Z.of_nat (rows a).
Definition shape1 (a : ndarray) : Z := Z.of_nat (cols a).

Definition is_empty (a : ndarray) : bool :=
  (rows a =? 0)%nat || (cols a =? 0)%nat.

(** The position a slice bound [i] denotes in a sequence of length [len]:
    a negative bound counts from the end, and every bound is clamped to
    [0 .. len]. *)
Definition slice_index (len : nat) (i : Z) : nat :=
  Z.to_nat (if i <? 0 then Z.max 0 (i + Z.of_nat len)
            else Z.min i (Z.of_nat len)).

(** [arr[y:y2, x:x2]] *)
Definition crop (arr : ndarray) (y y2 x x2 : Z) : ndarray :=
  let r0 := slice_index (rows arr) y in
  let r1 := slice_index (rows arr) y2 in
  let c0 := slice_index (cols arr) x in
  let c1 := slice_index (cols arr) x2 in
  {| rows := r1 - r0;
     cols := c1 - c0;
     chans := chans arr;
     dtype := dtype arr;
     pix := fun r c k => pix arr (r0 + r) (c0 + c) k |}.

(** The element types that [cv2.cvtColor] converts: 8-bit and 16-bit
    unsigned and 32-bit float. *)
Definition cvt_depth (t : numpy_dtype) : bool :=
  match t with
  | np_uint8 | np_uint16 | np_float32 => true
  | np_bool | np_int32 => false
  end.

(** [cv2.cvtColor(img, cv2.COLOR_GRAY2RGB)]: the gray value replicated on
    three channels. OpenCV raises on an empty input, on an element type it
    does not convert and on an input that has not one channel. *)
Definition cvtColor_GRAY2RGB (img : ndarray) : option ndarray :=
  if is_empty img then None
  else if negb (cvt_depth (dtype img)) then None
  else
    match chans img with
    | None | Some 1%nat =>
        Some {| rows := rows img; cols := cols img; chans := Some 3%nat;
                dtype := dtype img;
                pix := fun r c _ => pix img r c 0 |}
    | Some _ => None
    end.

(** [cv2.cvtColor(img, cv2.COLOR_RGBA2RGB)]: the alpha channel dropped.
    OpenCV raises on an empty input, on an element type it does not convert
    and on an input that has not four channels. *)
Definition cvtColor_RGBA2RGB (img : ndarray) : option ndarray :=
  if is_empty img then None
  else if negb (cvt_depth (dtype img)) then None
  else
    match chans img with
    | Some 4%nat =>
        Some {| rows := rows img; cols := cols img; chans := Some 3%nat;
                dtype := dtype img;
                pix := pix img |}
    | _ => None
    end.

End Img.

(** ** Model cache, lazy getters and background preloading *)

Module Cache.

Inductive slot : Type := SlotDetector | SlotEmbedder | SlotDatabase.

(** An MTCNN object: its identity, and whether [load_models] built it (with
    [steps_threshold]) or [get_detector] did (without). *)
Record Detector : Type := mk_detector {
  det_id : nat;
  det_preloaded : bool
}.

(** A FaceNet object. *)
Record Embedder : Type := mk_embedder {
  emb_id : nat
}.

(** The object stored under ['database']. *)
Record Database : Type := mk_database {
  db_id : nat;
  db_items : Store Np.vec
}.

(** What the process can observe of the outside. *)
Record Env : Type := mk_env {
  (** whether importing and constructing [MTCNN] returns *)
  mtcnn_loads : bool;
  (** whether importing and constructing [FaceNet] returns *)
  facenet_loads : bool;
  (** [pickle.load] on [database.pkl]: [None] when opening or unpickling
      raises, [Some None] when the pickled object is Python's [None] *)
  pickle_load : option (option (Store Np.vec));
  (** the request body decoded to a pixel array; [None] when it raises *)
  decode_request : string -> option Img.ndarray;
  (** [detector.detect_faces(arr)]: the [box] of each detection *)
  detect_faces : Detector -> Img.ndarray -> option (list (Z * Z * Z * Z));
  (** [cv2.resize(img, (160, 160))] on a non-empty input *)
  resize_160 : Img.ndarray -> option Img.ndarray;
  (** [embedder.embeddings([face])[0]] *)
  embeddings : Embedder -> Img.ndarray -> option Np.vec
}.

(** The globals [model_cache] and [models_loaded], and the allocator of
    object identities. *)
Record State : Type := mk_state {
  detector : option Detector;
  embedder : option Embedder;
  database : option Database;
  models_loaded : bool;
  next_id : nat
}.

Definition initial : State :=
  {| detector := None; embedder := None; database := None;
     models_loaded := false; next_id := 0 |}.

Inductive event : Type :=
| EvInit (s : slot) (id : nat)
| EvRequest
| EvDetect (arr : Img.ndarray)
| EvEmbed (face : Img.ndarray).

(** A computation on the globals that logs its calls and may raise. What it
    did before raising stays done. *)
Definition M (A : Type) : Type := State -> State * list event * option A.

Definition ret {A : Type} (a : A) : M A := fun st => (st, [], Some a).

Definition raise {A : Type} : M A := fun st => (st, [], None).

Definition bindM {A B : Type} (m : M A) (k : A -> M B) : M B :=
  fun st =>
    match m st with
    | (st1, t1, Some a) =>
        match k a st1 with
        | (st2, t2, r) => (st2, t1 ++ t2, r)
        end
    | (st1, t1, None) => (st1, t1, None)
    end.

(** [try: m except Exception: h] *)
Definition try_except {A : Type} (m : M A) (h : M A) : M A :=
  fun st =>
    match m st with
    | (st1, t1, Some a) => (st1, t1, Some a)
    | (st1, t1, None) =>
        match h st1 with
        | (st2, t2, r) => (st2, t1 ++ t2, r)
        end
    end.

Definition emit (e : event) : M unit := fun st => (st, [e], Some tt).

(** The outcome of a call that may raise. *)
Definition lift {A : Type} (o : option A) : M A := fun st => (st, [], o).

Definition read : M State := fun st => (st, [], Some st).

End Cache.

Notation "x <~ m ;; k" := (Cache.bindM m (fun x => k))
  (at level 61, m at next level, right associativity).
Notation "m ;;; k" := (Cache.bindM m (fun _ => k))
  (at level 61, right associativity).

(** ** The application: [app.py] *)

Module App.

Import Flt Img Cache.

(** *** Assignments to the globals *)

Definition set_detector (v : option Detector) : M unit :=
  fun st =>
    ({| detector := v; embedder := embedder st; database := database st;
        models_loaded := models_loaded st; next_id := next_id st |},
     [], Some tt).

Definition set_embedder (v : option Embedder) : M unit :=
  fun st =>
    ({| detector := detector st; embedder := v; database := database st;
        models_loaded := models_loaded st; next_id := next_id st |},
     [], Some tt).

Definition set_database (v : option Database) : M unit :=
  fun st =>
    ({| detector := detector st; embedder := embedder st; database := v;
        models_loaded := models_loaded st; next_id := next_id st |},
     [], Some tt).

Definition set_models_loaded (v : bool) : M unit :=
  fun st =>
    ({| detector := detector st; embedder := embedder st;
        database := database st; models_loaded := v;
        next_id := next_id st |},
     [], Some tt).

(** The identity of a newly built object. *)
Definition fresh : M nat :=
  fun st =>
    ({| detector := detector st; embedder := embedder st;
        database := database st; models_loaded := models_loaded st;
        next_id := S (next_id st) |},
     [], Some (next_id st)).

(** *** Constructors of the capabilities *)

(** [from mtcnn.mtcnn import MTCNN] and [MTCNN(...)] *)
Definition new_MTCNN (env : Env) (preloaded : bool) : M Detector :=
  if mtcnn_loads env then
    id <~ fresh ;;
    emit (EvInit SlotDetector id) ;;;
    ret {| det_id := id; det_preloaded := preloaded |}
  else raise.

(** [from keras_facenet import FaceNet] and [FaceNet()] *)
Definition new_FaceNet (env : Env) : M Embedder :=
  if facenet_loads env then
    id <~ fresh ;;
    emit (EvInit SlotEmbedder id) ;;;
    ret {| emb_id := id |}
  else raise.

(** The dict that a load of [database.pkl] yields, as a new object. *)
Definition new_database (items : Store Np.vec) : M Database :=
  id <~ fresh ;;
  emit (EvInit SlotDatabase id) ;;;
  ret {| db_id := id; db_items := items |}.

(** *** The lazy getters; each body runs under [cache_lock] *)

Definition get_embedder (env : Env) : M (option Embedder) :=
  st <~ read ;;
  match embedder st with
  | None => e <~ new_FaceNet env ;; set_embedder (Some e)
  | Some _ => ret tt
  end ;;;
  st' <~ read ;;
  ret (embedder st').

Definition get_detector (env : Env) : M (option Detector) :=
  st <~ read ;;
  match detector st with
  | None => d <~ new_MTCNN env false ;; set_detector (Some d)
  | Some _ => ret tt
  end ;;;
  st' <~ read ;;
  ret (detector st').

Definition get_database (env : Env) : M (option Database) :=
  st <~ read ;;
  match database st with
  | None =>
      obj <~ lift (pickle_load env) ;;
      match obj with
      | Some items => db <~ new_database items ;; set_database (Some db)
      | None => set_database None
      end
  | Some _ => ret tt
  end ;;;
  st' <~ read ;;
  ret (database st').

(** *** [load_models], the body of the background thread

    The thread takes [cache_lock] three times, once around each assignment to
    [model_cache]; between two of them other threads may run. Each of the
    steps below is what the thread does from one such point to the next. *)

Inductive bg_pc : Type := BgDetector | BgDatabase | BgEmbedder | BgFlag | BgDone.

Definition preload_detector (env : Env) : M unit :=
  d <~ new_MTCNN env true ;;
  set_detector (Some d).

(** [data.items()] raises when the pickled object is [None]. *)
Definition preload_database (env : Env) : M unit :=
  obj <~ lift (pickle_load env) ;;
  items <~ lift obj ;;
  db <~ new_database items ;;
  set_database (Some db).

Definition preload_embedder (env : Env) : M unit :=
  e <~ new_FaceNet env ;;
  set_embedder (Some e).

(** One step of the thread, and the point it reaches. The [except] clause
    ends the thread. *)
Definition load_models_step (env : Env) (pc : bg_pc) : M bg_pc :=
  try_except
    match pc with
    | BgDetector => preload_detector env ;;; ret BgDatabase
    | BgDatabase => preload_database env ;;; ret BgEmbedder
    | BgEmbedder => preload_embedder env ;;; ret BgFlag
    | BgFlag => set_models_loaded true ;;; ret BgDone
    | BgDone => ret BgDone
    end
    (ret BgDone).

(** The whole function, when no other thread runs in between. *)
Definition load_models (env : Env) : M unit :=
  try_except
    (preload_detector env ;;;
     preload_database env ;;;
     preload_embedder env ;;;
     set_models_loaded true)
    (ret tt).

(** [status()]: [models_loaded] and the three [is not None] tests. *)
Definition is_not_None {A : Type} (v : option A) : bool :=
  match v with
  | Some _ => true
  | None => false
  end.

Definition status : M (bool * bool * bool * bool) :=
  st <~ read ;;
  ret (models_loaded st, is_not_None (detector st),
       is_not_None (embedder st), is_not_None (database st)).

(** *** [reconocer_persona] *)

(** The block under [# Ensure RGB format]. *)
Definition ensure_rgb (img_array : ndarray) : option ndarray :=
  if ndim img_array =? 2 then cvtColor_GRAY2RGB img_array
  else
    match chans img_array with
    | Some 4%nat => cvtColor_RGBA2RGB img_array
    | _ => Some img_array
    end.

(** [cv2.resize(img, (160, 160))]; OpenCV raises on an empty input. *)
Definition cv2_resize (env : Env) (img : ndarray) : option ndarray :=
  if is_empty img then None else resize_160 env img.

Definition error_result : best := ("Error"%string, inf).

(** The [try] block. *)
Definition reconocer_persona_try (env : Env) (img_array : ndarray)
    (emb : Embedder) (base_datos : Database) (umbral : float) : M best :=
  img <~ lift (ensure_rgb img_array) ;;
  face_resized <~ lift (cv2_resize env img) ;;
  emit (EvEmbed face_resized) ;;;
  embedding <~ lift (embeddings env emb face_resized) ;;
  lift (closest_match Np.norm_sub umbral embedding (db_items base_datos)).

Definition reconocer_persona (env : Env) (img_array : ndarray)
    (emb : Embedder) (base_datos : Database) (umbral : float) : M best :=
  try_except
    (reconocer_persona_try env img_array emb base_datos umbral)
    (ret error_result).

(** *** [reconocer] *)

(** One entry of [resultados]. *)
Record resultado : Type := mk_resultado {
  nombre : string;
  distancia : float;
  bbox : list Z
}.

(** The response: [success=True] with the results, the 503 reply
    [Models not ready yet] with its three flags, or the 500 reply of the
    [except] clause. *)
Inductive response : Type :=
| Success (resultados : list resultado)
| NotReady (detector_loaded embedder_loaded database_loaded : bool)
| Failure.

(** The clamped origin [(x, y)] and the extents [(x2, y2)] of a box. *)
Definition clip (arr : ndarray) (box : Z * Z * Z * Z) : Z * Z * Z * Z :=
  let '(x, y, w, h) := box in
  let x := Z.max 0 x in
  let y := Z.max 0 y in
  let x2 := Z.min (shape1 arr) (x + w) in
  let y2 := Z.min (shape0 arr) (y + h) in
  (x, y, x2, y2).

(** [arr[y:y2, x:x2]] for the clipped box. *)
Definition face_img (arr : ndarray) (box : Z * Z * Z * Z) : ndarray :=
  let '(x, y, x2, y2) := clip arr box in
  crop arr y y2 x x2.

(** The body of [for cara in detecciones], which appends to [resultados]. *)
Definition cara_body (env : Env) (arr : ndarray) (emb : Embedder)
    (base_datos : Database) (box : Z * Z * Z * Z)
    (resultados : list resultado) : M (list resultado) :=
  let '(_, _, w, h) := box in
  let '(x, y, _, _) := clip arr box in
  r <~ reconocer_persona env (face_img arr box) emb base_datos
         umbral_default ;;
  ret (resultados ++ [{| nombre := fst r; distancia := snd r;
                         bbox := [x; y; w; h] |}]).

Fixpoint for_caras (env : Env) (arr : ndarray) (emb : Embedder)
    (base_datos : Database) (detecciones : list (Z * Z * Z * Z))
    (resultados : list resultado) : M (list resultado) :=
  match detecciones with
  | [] => ret resultados
  | box :: rest =>
      resultados' <~ cara_body env arr emb base_datos box resultados ;;
      for_caras env arr emb base_datos rest resultados'
  end.

(** The handler of [POST /reconocer], on the body of the request. *)
Definition reconocer (env : Env) (body : string) : M response :=
  try_except
    (det <~ get_detector env ;;
     emb <~ get_embedder env ;;
     base_datos <~ get_database env ;;
     match det, emb, base_datos with
     | Some d, Some e, Some db =>
         emit EvRequest ;;;
         arr <~ lift (decode_request env body) ;;
         emit (EvDetect arr) ;;;
         detecciones <~ lift (detect_faces env d arr) ;;
         resultados <~ for_caras env arr e db detecciones [] ;;
         ret (Success resultados)
     | _, _, _ =>
         ret (NotReady (is_not_None det) (is_not_None emb)
                (is_not_None base_datos))
     end)
    (ret Failure).

(** The first three calls of [reconocer]. *)
Definition getters (env : Env)
  : M (option Detector * option Embedder * option Database) :=
  det <~ get_detector env ;;
  emb <~ get_embedder env ;;
  base_datos <~ get_database env ;;
  ret (det, emb, base_datos).

(** *** What one face contributes

    [reconocer_persona] neither raises nor assigns to the globals, so its
    log and its result are those of a run from any state. *)

Definition persona_outcome (env : Env) (img_array : ndarray) (emb : Embedder)
    (base_datos : Database) (umbral : float) : list event * best :=
  match reconocer_persona env img_array emb base_datos umbral initial with
  | (_, t, Some r) => (t, r)
  | (_, t, None) => (t, error_result)
  end.

Definition face_trace (env : Env) (arr : ndarray) (emb : Embedder)
    (base_datos : Database) (box : Z * Z * Z * Z) : list event :=
  fst (persona_outcome env (face_img arr box) emb base_datos umbral_default).

Definition resultado_de (env : Env) (arr : ndarray) (emb : Embedder)
    (base_datos : Database) (box : Z * Z * Z * Z) : resultado :=
  let '(_, _, w, h) := box in
  let '(x, y, _, _) := clip arr box in
  let r :=
    snd (persona_outcome env (face_img arr box) emb base_datos
           umbral_default) in
  {| nombre := fst r; distancia := snd r; bbox := [x; y; w; h] |}.

(** The [try] block of [reconocer_persona] raises on this face. *)
Definition face_fails (env : Env) (arr : ndarray) (emb : Embedder)
    (base_datos : Database) (box : Z * Z * Z * Z) : bool :=
  match reconocer_persona_try env (face_img arr box) emb base_datos
          umbral_default initial with
  | (_, _, None) => true
  | (_, _, Some _) => false
  end.

(** The entry is the pair [("Error", inf)] of the [except] clause. *)
Definition is_error (r : resultado) : bool :=
  String.eqb (nombre r) "Error" && is_inf (distancia r).

(** A detection survives the clipping when its clipped box has a positive
    width and a positive height. *)
Definition survives (arr : ndarray) (box : Z * Z * Z * Z) : bool :=
  let '(x, y, x2, y2) := clip arr box in
  (x <? x2) && (y <? y2).

(** *** Threads

    The bodies of the getters and the steps of [load_models] exclude one
    another through [cache_lock], so a run of the process is a sequence of
    them: the background thread takes its next step, or some request thread
    calls a getter. *)

Inductive action : Type :=
| Bg
| Get (s : slot).

(** What a getter call returned: the identity of the object, if any. *)
Definition observation : Type := (slot * option nat)%type.

Record config : Type := mk_config {
  globals : State;
  pc : bg_pc;
  trace : list event;
  observed : list observation
}.

Definition boot : config :=
  {| globals := initial; pc := BgDetector; trace := []; observed := [] |}.

Definition getter (env : Env) (s : slot) : M (option nat) :=
  match s with
  | SlotDetector => v <~ get_detector env ;; ret (option_map det_id v)
  | SlotEmbedder => v <~ get_embedder env ;; ret (option_map emb_id v)
  | SlotDatabase => v <~ get_database env ;; ret (option_map db_id v)
  end.

Definition run_action (env : Env) (c : config) (a : action) : config :=
  match a with
  | Bg =>
      match load_models_step env (pc c) (globals c) with
      | (st, t, Some pc') =>
          {| globals := st; pc := pc'; trace := trace c ++ t;
             observed := observed c |}
      | (st, t, None) =>
          {| globals := st; pc := BgDone; trace := trace c ++ t;
             observed := observed c |}
      end
  | Get s =>
      match getter env s (globals c) with
      | (st, t, Some v) =>
          {| globals := st; pc := pc c; trace := trace c ++ t;
             observed := observed c ++ [(s, v)] |}
      | (st, t, None) =>
          {| globals := st; pc := pc c; trace := trace c ++ t;
             observed := observed c |}
      end
  end.

Definition run (env : Env) (schedule : list action) (c : config) : config :=
  fold_left (run_action env) schedule c.

Definition slot_eqb (a b : slot) : bool :=
  match a, b with
  | SlotDetector, SlotDetector
  | SlotEmbedder, SlotEmbedder
  | SlotDatabase, SlotDatabase => true
  | _, _ => false
  end.

(** How many objects were built for slot [s]. *)
Fixpoint inits (s : slot) (t : list event) : nat :=
  match t with
  | [] => 0
  | EvInit s' _ :: t' => (if slot_eqb s s' then 1 else 0) + inits s t'
  | _ :: t' => inits s t'
  end.

(** The identities the getter calls for slot [s] returned, in order. *)
Fixpoint seen (s : slot) (obs : list observation) : list (option nat) :=
  match obs with
  | [] => []
  | (s', v) :: obs' =>
      if slot_eqb s s' then v :: seen s obs' else seen s obs'
  end.

(** The schedule has no step of the background thread. *)
Definition only_getters (schedule : list action) : bool :=
  forallb (fun a => match a with Get _ => true | Bg => false end) schedule.

Definition slot_set (s : slot) (st : State) : bool :=
  match s with
  | SlotDetector => is_not_None (detector st)
  | SlotEmbedder => is_not_None (embedder st)
  | SlotDatabase => is_not_None (database st)
  end.

(** What is still to build for slot [s], at most. *)
Definition pending (s : slot) (c : config) : nat :=
  (inits s (trace c) + if slot_set s (globals c) then 0 else 1)%nat.

(** The identity of the object in slot [s]. *)
Definition slot_id (s : slot) (st : State) : option nat :=
  match s with
  | SlotDetector => option_map det_id (detector st)
  | SlotEmbedder => option_map emb_id (embedder st)
  | SlotDatabase => option_map db_id (database st)
  end.

(** Every caller so far received the object that is in the slot; while the
    slot is unset the only value a caller can have received is the [None]
    of a database file that holds [None]. *)
Definition coherent (env : Env) (s : slot) (c : config) : Prop :=
  forall v, In v (seen s (observed c)) ->
    match slot_id s (globals c) with
    | Some id => v = Some id
    | None => v = None /\ s = SlotDatabase /\ pickle_load env = Some None
    end.

End App.

(** ** Concrete inputs *)

Module Examples.

Import Flt Img Cache App.

Definition one : float := Eval vm_compute in Prim2SF 1%float.

Definition v1 : Np.vec := [one; zero].
Definition v2 : Np.vec := [zero; one].

(** [{"alice": [v1], "bob": [v2]}] *)
Definition store_ab : Store Np.vec :=
  [("alice"%string, [v1]); ("bob"%string, [v2])].

(** [{"alice": [v1], "bob": [v1]}]: one vector enrolled under two labels. *)
Definition store_dup : Store Np.vec :=
  [("alice"%string, [v1]); ("bob"%string, [v1])].

(** A 10 x 10 image of the given format. *)
Definition image (c : option nat) : ndarray :=
  {| rows := 10; cols := 10; chans := c; dtype := np_uint8;
     pix := fun _ _ _ => 128 |}.

Definition rgb : ndarray := image (Some 3%nat).
Definition gray : ndarray := image None.

(** A 10 x 10 image of mode 1: a two-dimensional array of booleans. *)
Definition mode1 : ndarray :=
  {| rows := 10; cols := 10; chans := None; dtype := np_bool;
     pix := fun _ _ _ => 1 |}.

(** What [resize_160] answers below. *)
Definition resized (face : ndarray) : ndarray :=
  {| rows := 160; cols := 160; chans := chans face; dtype := dtype face;
     pix := fun _ _ _ => 128 |}.

(** A process in which every loader works, every request decodes to [img],
    the detector reports [boxes] and the embedder answers [v1]. *)
Definition env_of (img : ndarray) (boxes : list (Z * Z * Z * Z)) : Env :=
  {| mtcnn_loads := true;
     facenet_loads := true;
     pickle_load := Some (Some store_ab);
     decode_request := fun _ => Some img;
     detect_faces := fun _ _ => Some boxes;
     resize_160 := fun face => Some (resized face);
     embeddings := fun _ _ => Some v1 |}.

(** A process whose [database.pkl] holds the object [None]. *)
Definition env_null : Env :=
  {| mtcnn_loads := true;
     facenet_loads := true;
     pickle_load := Some None;
     decode_request := fun _ => Some rgb;
     detect_faces := fun _ _ => Some [];
     resize_160 := fun face => Some (resized face);
     embeddings := fun _ _ => Some v1 |}.

(** A process in which MTCNN cannot be imported. *)
Definition env_broken : Env :=
  {| mtcnn_loads := false;
     facenet_loads := true;
     pickle_load := Some (Some store_ab);
     decode_request := fun _ => Some rgb;
     detect_faces := fun _ _ => Some [];
     resize_160 := fun face => Some (resized face);
     embeddings := fun _ _ => Some v1 |}.

Definition the_detector : Detector := {| det_id := 0; det_preloaded := true |}.
Definition the_embedder : Embedder := {| emb_id := 2 |}.
Definition the_database : Database := {| db_id := 1; db_items := store_ab |}.

(** The globals once [load_models] has run. *)
Definition warm : State :=
  {| detector := Some the_detector;
     embedder := Some the_embedder;
     database := Some the_database;
     models_loaded := true;
     next_id := 3 |}.

(** The distances of [v1] to the references of [store_ab]. *)
Definition cands_ab : list (string * float) :=
  Eval vm_compute in
    match distances Np.norm_sub v1 (references store_ab) with
    | Some c => c
    | None => []
    end.

(** Entries of [resultados]. *)
Definition error_entry (box : list Z) : resultado :=
  {| nombre := "Error"; distancia := inf; bbox := box |}.

Definition alice_entry (box : list Z) : resultado :=
  {| nombre := "alice"; distancia := zero; bbox := box |}.

End Examples.

(** ** Counting the calls a request makes *)

Module Calls.

Import Flt Img Cache App.

Definition is_init (e : event) : bool :=
  match e with
  | EvInit _ _ => true
  | _ => false
  end.

Definition is_detect (e : event) : bool :=
  match e with
  | EvDetect _ => true
  | _ => false
  end.

Definition is_embed (e : event) : bool :=
  match e with
  | EvEmbed _ => true
  | _ => false
  end.

(** How many events of the log [t] satisfy [p]. *)
Definition count (p : event -> bool) (t : list event) : nat :=
  List.length (filter p t).

(** The three slots of [model_cache] hold an object. *)
Definition all_set (st : State) : bool :=
  slot_set SlotDetector st && slot_set SlotEmbedder st
  && slot_set SlotDatabase st.

(** How many of the three slots hold no object. *)
Definition unset_slots (st : State) : nat :=
  ((if slot_set SlotDetector st then 0 else 1)
   + (if slot_set SlotEmbedder st then 0 else 1)
   + (if slot_set SlotDatabase st then 0 else 1))%nat.

(** The three loaders return an object. *)
Definition loaders_work (env : Env) : bool :=
  mtcnn_loads env && facenet_loads env
  && match pickle_load env with
     | Some (Some _) => true
     | _ => false
     end.

(** The detector in the cache is the one [load_models] built. *)
Definition detector_preloaded (st : State) : bool :=
  match detector st with
  | Some d => det_preloaded d
  | None => false
  end.

(** The embedding that [reconocer_persona] computes for a face, lines
    166-173: [None] when the conversion, the resize or the embedder
    raises. *)
Definition face_embedding (env : Env) (emb : Embedder) (img_array : ndarray)
  : option Np.vec :=
  img <- ensure_rgb img_array ;;
  face_resized <- cv2_resize env img ;;
  embeddings env emb face_resized.

(** How far the background thread is, read off the globals: past its first
    block the detector is its own, past the second the database is set, past
    the third the embedder is set, and [models_loaded] is set only by its
    last step. *)
Definition bg_invariant (c : config) : Prop :=
  match pc c with
  | BgDetector => models_loaded (globals c) = false
  | BgDatabase =>
      models_loaded (globals c) = false /\
      detector_preloaded (globals c) = true
  | BgEmbedder =>
      models_loaded (globals c) = false /\
      detector_preloaded (globals c) = true /\
      slot_set SlotDatabase (globals c) = true
  | BgFlag =>
      models_loaded (globals c) = false /\
      detector_preloaded (globals c) = true /\
      slot_set SlotDatabase (globals c) = true /\
      slot_set SlotEmbedder (globals c) = true
  | BgDone =>
      models_loaded (globals c) = true ->
      detector_preloaded (globals c) = true /\
      slot_set SlotDatabase (globals c) = true /\
      slot_set SlotEmbedder (globals c) = true
  end.

End Calls.

(** ** The request body: [reconocer], lines 125-128 *)

Module Http.

Definition comma : ascii := ","%char.

(** [","  in s] *)
Fixpoint has_comma (s : string) : bool :=
  match s with
  | EmptyString => false
  | String c s' => Ascii.eqb c comma || has_comma s'
  end.

(** [s.split(",", 1)]: the text before the first comma and the text after
    it, or [s] alone when it has no comma. *)
Fixpoint split_comma_1 (s : string) : list string :=
  match s with
  | EmptyString => [EmptyString]
  | String c s' =>
      if Ascii.eqb c comma then [EmptyString; s']
      else
        match split_comma_1 s' with
        | before :: rest => String c before :: rest
        | [] => [String c EmptyString]
        end
  end.

(** The two lines after [image_data = data.get("image", "")]; [None] when
    the index [1] is out of range. *)
Definition image_payload (image_data : string) : option string :=
  if has_comma image_data then nth_error (split_comma_1 image_data) 1
  else Some image_data.

End Http.

(** ** Enrolment: [create_database.py] *)

Module Enrol.

(** File names, as byte strings. [str.lower] acts on the ASCII letters; no
    other character lowers to a letter of the suffixes and names tested
    below. *)
Definition lower_ascii (c : ascii) : ascii :=
  let n := nat_of_ascii c in
  if ((65 <=? n) && (n <=? 90))%nat then ascii_of_nat (n + 32) else c.

Fixpoint lower (s : string) : string :=
  match s with
  | EmptyString => EmptyString
  | String c s' => String (lower_ascii c) (lower s')
  end.

(** [s.startswith(p)] *)
Definition startswith (s p : string) : bool := String.prefix p s.

(** [s.endswith(p)] *)
Definition endswith (s p : string) : bool :=
  let n := String.length s in
  let m := String.length p in
  ((m <=? n)%nat && String.eqb (String.substring (n - m) m s) p)%bool.

(** The test that makes the inner loop [continue]. *)
Definition skipped (imagen : string) : bool :=
  startswith imagen "."
  || negb (endswith (lower imagen) ".jpg"
           || endswith (lower imagen) ".jpeg"
           || endswith (lower imagen) ".png").

(** [need_rgb] *)
Definition need_rgb (persona : string) : bool :=
  String.eqb (lower persona) "ederlmira" || String.eqb persona "Edelmira".

(** [os.path.join(a, b)] on POSIX. *)
Definition path_join (a b : string) : string :=
  if startswith b "/" then b
  else if String.eqb a "" || endswith a "/" then (a ++ b)%string
  else (a ++ "/" ++ b)%string.

Definition dataset_dir : string := "data".

(** What the script sees of the outside. *)
Record World : Type := mk_world {
  (** a decoded image file *)
  Picture : Type;
  (** whether [FaceNet()] returns, at the top of the script *)
  facenet_starts : bool;
  (** [os.listdir(d)]; [None] when it raises *)
  listdir : string -> option (list string);
  (** [os.path.isdir(p)] *)
  isdir : string -> bool;
  (** [Image.open(ruta)] *)
  image_open : string -> option Picture;
  (** [img.convert('RGB')] *)
  convert_rgb : Picture -> option Picture;
  (** [img.resize((160, 160))] *)
  resize : Picture -> option Picture;
  (** [embedder.embeddings([np.array(img)])] *)
  embed_batch : Picture -> option (list Np.vec)
}.

Definition obtener_embedding (w : World) (ruta : string) (force_rgb : bool)
  : option Np.vec :=
  img <- image_open w ruta ;;
  img <- (if force_rgb then convert_rgb w img else Some img) ;;
  img <- resize w img ;;
  embedding <- embed_batch w img ;;
  nth_error embedding 0.

(** [d[k] = v] on a dict: in place when the key is there, at the end when
    it is not. *)
Fixpoint dict_set {V : Type} (k : string) (v : V) (d : list (string * V))
  : list (string * V) :=
  match d with
  | [] => [(k, v)]
  | (k', v') :: d' =>
      if String.eqb k k' then (k, v) :: d' else (k', v') :: dict_set k v d'
  end.

(** The inner loop, which appends to [embeddings[persona]]. *)
Fixpoint scan_images (w : World) (persona_dir : string) (rgb : bool)
    (imagenes : list string) (found : list Np.vec) : list Np.vec :=
  match imagenes with
  | [] => found
  | imagen :: rest =>
      if skipped imagen then scan_images w persona_dir rgb rest found
      else
        match obtener_embedding w (path_join persona_dir imagen) rgb with
        | Some emb => scan_images w persona_dir rgb rest (found ++ [emb])
        | None => scan_images w persona_dir rgb rest found
        end
  end.

(** The outer loop. *)
Fixpoint scan_personas (w : World) (personas : list string)
    (embeddings : Store Np.vec) : option (Store Np.vec) :=
  match personas with
  | [] => Some embeddings
  | persona :: rest =>
      let persona_dir := path_join dataset_dir persona in
      if negb (isdir w persona_dir) then scan_personas w rest embeddings
      else
        imagenes <- listdir w persona_dir ;;
        scan_personas w rest
          (dict_set persona
             (scan_images w persona_dir (need_rgb persona) imagenes [])
             embeddings)
  end.

(** The dict that the script pickles; [None] when the script dies. *)
Definition create_database (w : World) : option (Store Np.vec) :=
  if facenet_starts w then
    personas <- listdir w dataset_dir ;;
    scan_personas w personas []
  else None.

(** The pickle files of the working directory: a name to the object it
    holds. *)
Definition Files : Type := string -> option (option (Store Np.vec)).

(** The script, on the files: it writes [embeddings.pkl]. *)
Definition run_script (w : World) (files : Files) : option Files :=
  store <- create_database w ;;
  Some (fun name =>
          if String.eqb name "embeddings.pkl" then Some (Some store)
          else files name).

(** What [pickle.load] on [database.pkl] gives the application. *)
Definition app_pickle_load (files : Files) : option (option (Store Np.vec)) :=
  files "database.pkl"%string.

(** The embeddings of the usable images of a directory, in listing order. *)
Definition usable (w : World) (persona : string) (imagenes : list string)
  : list Np.vec :=
  flat_map
    (fun imagen =>
       if skipped imagen then []
       else
         match obtener_embedding w
                 (path_join (path_join dataset_dir persona) imagen)
                 (need_rgb persona) with
         | Some emb => [emb]
         | None => []
         end)
    imagenes.

(** Every entry holds the usable images of its directory. *)
Definition entries_usable (w : World) (d : Store Np.vec) : Prop :=
  forall persona l,
    In (persona, l) d ->
    exists imagenes,
      listdir w (path_join dataset_dir persona) = Some imagenes /\
      l = usable w persona imagenes.

End Enrol.

(** ** Concrete inputs for the cache, the request and the enrolment *)

Module Samples.

Import Flt Img Cache App Examples Enrol.

(** A process with no [database.pkl] in its working directory. *)
Definition env_nofile : Env :=
  {| mtcnn_loads := true;
     facenet_loads := true;
     pickle_load := None;
     decode_request := fun _ => Some rgb;
     detect_faces := fun _ _ => Some [];
     resize_160 := fun face => Some (resized face);
     embeddings := fun _ _ => Some v1 |}.

(** The process once the three slots are set, with [load_models] still to
    start. *)
Definition warm_config : config :=
  {| globals := warm; pc := BgDetector; trace := []; observed := [] |}.

(** The background thread runs to its end while a request asks for the
    embedder. *)
Definition preload_schedule : list action :=
  [Bg; Get SlotEmbedder; Bg; Bg; Bg].

(** Three requests for the detector and one for the database. *)
Definition lazy_schedule : list action :=
  [Get SlotDetector; Get SlotDatabase; Get SlotDetector; Get SlotDetector].

(** The grayscale image [gray] on three channels. *)
Definition gray_rgb : ndarray :=
  {| rows := 10; cols := 10; chans := Some 3%nat; dtype := np_uint8;
     pix := fun r c _ => pix gray r c 0 |}.

(** A box that starts left of a 10 x 10 image and ends below it. *)
Definition box_left : Z * Z * Z * Z := (-2, 3, 5, 20).

(** The [data] directory: two persons and a stray file; alice has one good
    picture, a hidden file, a picture that cannot be opened and a text
    file, bob has no file. *)
Definition sample_listdir (d : string) : option (list string) :=
  if String.eqb d "data" then Some ["alice"; "notes.txt"; "bob"]%string
  else if String.eqb d "data/alice"
  then Some ["a1.jpg"; ".hidden.png"; "broken.PNG"; "readme.md"]%string
  else if String.eqb d "data/bob" then Some []
  else None.

Definition sample_world : World :=
  {| Picture := string;
     facenet_starts := true;
     listdir := sample_listdir;
     isdir := fun p => String.eqb p "data/alice" || String.eqb p "data/bob";
     image_open :=
       fun ruta =>
         if String.eqb ruta "data/alice/a1.jpg" then Some ruta else None;
     convert_rgb := fun img => Some img;
     resize := fun img => Some img;
     embed_batch := fun _ => Some [v1] |}.

(** What the script pickles in [sample_world]. *)
Definition sample_store : Store Np.vec :=
  [("alice"%string, [v1]); ("bob"%string, [])].

(** A working directory with no pickle file, and the same directory once
    the script has run. *)
Definition no_files : Files := fun _ => None.

Definition files_after : Files :=
  fun name =>
    if String.eqb name "embeddings.pkl" then Some (Some sample_store)
    else no_files name.

End Samples.

(** * Properties *)

Import Flt Img Cache App Examples.

(** ** The order on floats *)

Lemma ltb_rank (x y : float) : ltb x y = true <-> rank_lt x y.
Proof.
  unfold ltb, SFltb, rank_lt, lex_lt.
  destruct x as [sx|sx| |sx mx ex], y as [sy|sy| |sy my ey]; simpl;
    try (destruct sx); try (destruct sy); simpl;
    try (split; intro H;
         [ first [discriminate H | lia]
         | first [reflexivity | exfalso; tauto | exfalso; lia] ]).
  all: change (Pos.compare_cont Eq mx my) with (Pos.compare mx my).
  all: destruct (Z.compare_spec ex ey); destruct (Pos.compare_spec mx my);
    simpl; split; intros; try discriminate; try reflexivity; try lia.
Qed.

Lemma ltb_irrefl (x : float) : ltb x x = false.
Proof.
  destruct (ltb x x) eqn:E; [|reflexivity].
  apply ltb_rank in E. unfold rank_lt, lex_lt in E.
  destruct (rank x) as [[[a b] c]|]; [lia | contradiction].
Qed.

Lemma ltb_trans (x y z : float) :
  ltb x y = true -> ltb y z = true -> ltb x z = true.
Proof.
  rewrite !ltb_rank. unfold rank_lt, lex_lt.
  destruct (rank x) as [[[a1 a2] a3]|], (rank y) as [[[b1 b2] b3]|],
    (rank z) as [[[c1 c2] c3]|]; try tauto; lia.
Qed.

(** [a < b], not [c < b] and [c] is not a NaN: then [a < c]. *)
Lemma ltb_below (a b c : float) :
  ltb a b = true -> ltb c b = false -> is_nan c = false -> ltb a c = true.
Proof.
  intros Hab Hcb Hc.
  assert (Hn : ~ rank_lt c b) by (rewrite <- ltb_rank, Hcb; discriminate).
  apply ltb_rank in Hab. apply ltb_rank. revert Hab Hn.
  unfold rank_lt, lex_lt.
  assert (Hr : rank c <> None)
    by (destruct c as [|[]| |[]]; simpl in *; congruence).
  destruct (rank a) as [[[a1 a2] a3]|], (rank b) as [[[b1 b2] b3]|],
    (rank c) as [[[c1 c2] c3]|]; try tauto; try congruence; lia.
Qed.

Lemma ltb_not_nan (x y : float) : ltb x y = true -> is_nan x = false.
Proof. destruct x; simpl; [reflexivity..|discriminate|reflexivity]. Qed.

(** Whatever is below some float is below [inf]. *)
Lemma ltb_inf (d u : float) : ltb d u = true -> ltb d inf = true.
Proof.
  rewrite !ltb_rank. unfold rank_lt, lex_lt, inf.
  destruct d as [sd|[]| |[] md ed], u as [su|[]| |[] mu eu]; simpl; lia.
Qed.

Lemma ltb_inf_l (x : float) : ltb inf x = false.
Proof. destruct x as [s|[]| |[] m e]; reflexivity. Qed.

(** ** The matching rule *)

Section MatchEngineFacts.

Variable Emb : Type.
Variable norm_sub : Emb -> Emb -> option float.

Lemma distances_app (embedding : Emb) (l1 l2 : list (string * Emb))
    (cands : list (string * float)) :
  distances norm_sub embedding (l1 ++ l2) = Some cands ->
  exists c1 c2,
    distances norm_sub embedding l1 = Some c1 /\
    distances norm_sub embedding l2 = Some c2 /\ cands = c1 ++ c2.
Proof.
  revert cands. induction l1 as [|[n e] l1 IH]; intros cands H; simpl in *.
  - exists [], cands. auto.
  - destruct (norm_sub embedding e) as [d|]; simpl in *; [|discriminate].
    destruct (distances norm_sub embedding (l1 ++ l2)) as [ds|] eqn:E;
      simpl in *; [|discriminate].
    injection H as <-.
    destruct (IH ds eq_refl) as (c1 & c2 & -> & -> & ->).
    exists ((n, d) :: c1), c2. auto.
Qed.

Lemma scan_embs_fold (umbral : float) (embedding : Emb) (nombre : string)
    (emb_list : list Emb) (b : best) (cands : list (string * float)) :
  distances norm_sub embedding (map (fun e => (nombre, e)) emb_list)
    = Some cands ->
  scan_embs norm_sub umbral embedding nombre emb_list b
    = Some (fold_left (step umbral) cands b).
Proof.
  revert b cands. induction emb_list as [|e l IH]; intros b cands H; simpl in *.
  - injection H as <-. reflexivity.
  - destruct (norm_sub embedding e) as [d|]; simpl in *; [|discriminate].
    destruct (distances norm_sub embedding (map (fun e => (nombre, e)) l))
      as [ds|] eqn:E; simpl in *; [|discriminate].
    injection H as <-. simpl. apply IH. reflexivity.
Qed.

Lemma scan_store_fold (umbral : float) (embedding : Emb)
    (items : Store Emb) (b : best) (cands : list (string * float)) :
  distances norm_sub embedding (references items) = Some cands ->
  scan_store norm_sub umbral embedding items b
    = Some (fold_left (step umbral) cands b).
Proof.
  revert b cands. induction items as [|[n l] items IH]; intros b cands H.
  - simpl in *. injection H as <-. reflexivity.
  - simpl in H. apply distances_app in H. destruct H as (c1 & c2 & H1 & H2 & ->).
    simpl. rewrite (scan_embs_fold _ _ _ _ _ _ H1). simpl.
    rewrite fold_left_app. apply IH. exact H2.
Qed.

Lemma fold_step_scanned (umbral : float) (cands : list (string * float)) :
  scanned umbral cands (fold_left (step umbral) cands desconocido).
Proof.
  induction cands as [|[n d] cands IH] using rev_ind.
  - left. split; [reflexivity | intros c []].
  - rewrite fold_left_app. simpl.
    remember (fold_left (step umbral) cands desconocido) as r eqn:Er. clear Er.
    unfold step at 1, update. simpl fst; simpl snd.
    destruct (ltb d (snd r)) eqn:Hr; destruct (ltb d umbral) eqn:Hu; simpl.
    + (* the candidate becomes the result *)
      right. exists cands, []. repeat split; auto.
      * intros c Hc Hcu.
        destruct IH as [[_ Hnone] | (pre & post & Hsplit & Hru & Hpre & Hpost)].
        { rewrite (Hnone c Hc) in Hcu. discriminate. }
        rewrite Hsplit in Hc. apply in_app_or in Hc.
        destruct Hc as [Hc | [<- | Hc]].
        -- eapply ltb_trans; [exact Hr | exact (Hpre c Hc Hcu)].
        -- exact Hr.
        -- eapply ltb_below; [exact Hr | exact (Hpost c Hc) |].
           eapply ltb_not_nan; exact Hcu.
      * intros c [].
    + destruct IH as [[-> Hnone] | (pre & post & -> & Hru & Hpre & Hpost)].
      * left. split; [reflexivity|]. intros c Hc. apply in_app_or in Hc.
        destruct Hc as [Hc | [<- | []]]; auto.
      * right. exists pre, (post ++ [(n, d)]).
        rewrite <- app_assoc. repeat split; auto.
        intros c Hc. apply in_app_or in Hc. destruct Hc as [Hc | [<- | []]]; auto.
        simpl. destruct (ltb d (snd r)) eqn:E; [|reflexivity].
        rewrite (ltb_trans _ _ _ E Hru) in Hu. discriminate.
    + destruct IH as [[Hd Hnone] | (pre & post & Hs & Hru & Hpre & Hpost)].
      * rewrite Hd in Hr. simpl in Hr. rewrite (ltb_inf _ _ Hu) in Hr. discriminate.
      * right. exists pre, (post ++ [(n, d)]).
        rewrite Hs at 1. rewrite <- app_assoc. repeat split; auto.
        intros c Hc. apply in_app_or in Hc. destruct Hc as [Hc | [<- | []]]; auto.
    + destruct IH as [[Hd Hnone] | (pre & post & Hs & Hru & Hpre & Hpost)].
      * left. split; [exact Hd|]. intros c Hc. apply in_app_or in Hc.
        destruct Hc as [Hc | [<- | []]]; auto.
      * right. exists pre, (post ++ [(n, d)]).
        rewrite Hs at 1. rewrite <- app_assoc. repeat split; auto.
        intros c Hc. apply in_app_or in Hc. destruct Hc as [Hc | [<- | []]]; auto.
Qed.

Lemma fold_step_never (umbral : float) (cands : list (string * float)) :
  (forall pre c post, cands = pre ++ c :: post ->
     ltb (snd c) (snd (fold_left (step umbral) pre desconocido))
       && ltb (snd c) umbral = false) ->
  fold_left (step umbral) cands desconocido = desconocido.
Proof.
  induction cands as [|c cands IH] using rev_ind; intros H; [reflexivity|].
  assert (Hpre : fold_left (step umbral) cands desconocido = desconocido).
  { apply IH. intros pre c' post ->. apply (H pre c' (post ++ [c])).
    rewrite <- app_assoc. reflexivity. }
  pose proof (H cands c [] eq_refl) as Hc.
  rewrite fold_left_app. simpl. rewrite Hpre in *.
  unfold step, update. rewrite Hc. reflexivity.
Qed.

Lemma update_rule (umbral : float) (b : best) (nombre : string) (d : float) :
  (ltb d (snd b) = true /\ ltb d umbral = true ->
   update umbral b nombre d = (nombre, d)) /\
  (~ (ltb d (snd b) = true /\ ltb d umbral = true) ->
   update umbral b nombre d = b).
Proof.
  unfold update. split.
  - intros [-> ->]. reflexivity.
  - intros H. destruct (ltb d (snd b)), (ltb d umbral); simpl; auto.
    exfalso. auto.
Qed.

(** C1. For every probe embedding, threshold and store on which every
    distance is computed, the match scans the references of every identity
    in iteration order, replacing the running best by a candidate exactly
    when its distance is strictly below both the running minimum and the
    threshold; when no candidate passes that test the result is
    ("Desconocido", +infinity); and the result is the first candidate, in
    iteration order, among those of least distance below the threshold. *)
Theorem closest_match_rule (umbral : float) (embedding : Emb)
    (base_datos : Store Emb) (cands : list (string * float)) :
  distances norm_sub embedding (references base_datos) = Some cands ->
  exists r,
    closest_match norm_sub umbral embedding base_datos = Some r /\
    r = fold_left (step umbral) cands desconocido /\
    (forall b nombre d,
       (ltb d (snd b) = true /\ ltb d umbral = true ->
        update umbral b nombre d = (nombre, d)) /\
       (~ (ltb d (snd b) = true /\ ltb d umbral = true) ->
        update umbral b nombre d = b)) /\
    ((forall pre c post, cands = pre ++ c :: post ->
        ltb (snd c) (snd (fold_left (step umbral) pre desconocido))
          && ltb (snd c) umbral = false) ->
     r = desconocido) /\
    scanned umbral cands r.
Proof.
  intros H. exists (fold_left (step umbral) cands desconocido).
  split; [|split; [|split; [|split]]].
  - unfold closest_match. apply scan_store_fold. exact H.
  - reflexivity.
  - intros b nombre d. apply update_rule.
  - apply fold_step_never.
  - apply fold_step_scanned.
Qed.

(** No reference strictly within the threshold: the result is
    ("Desconocido", +infinity). *)
Corollary closest_match_unknown (umbral : float) (embedding : Emb)
    (base_datos : Store Emb) (cands : list (string * float)) :
  distances norm_sub embedding (references base_datos) = Some cands ->
  (forall c, In c cands -> ltb (snd c) umbral = false) ->
  closest_match norm_sub umbral embedding base_datos = Some desconocido.
Proof.
  intros H Hfar. unfold closest_match. rewrite (scan_store_fold _ _ _ _ _ H).
  f_equal.
  pose proof (fold_step_scanned umbral cands) as Hs.
  remember (fold_left (step umbral) cands desconocido) as r eqn:Er. clear Er.
  destruct Hs as [[Hr _] | (pre & post & Hsplit & Hru & _)]; [exact Hr|].
  rewrite Hfar in Hru; [discriminate|].
  rewrite Hsplit. apply in_or_app. right. left. reflexivity.
Qed.

End MatchEngineFacts.

(** ** Distances computed by numpy *)

Lemma sub_self (x : float) : is_real x = true -> Flt.sub x x = zero.
Proof.
  destruct x as [[]|s| |s m e]; simpl; try discriminate; try reflexivity.
  intros _. unfold Flt.sub, SFsub. rewrite Z.sub_diag. reflexivity.
Qed.

Lemma zip_sub_self (v : Np.vec) :
  Np.all_real v = true -> Np.zip_sub v v = map (fun _ => zero) v.
Proof.
  induction v as [|x v IH]; simpl; [reflexivity|].
  intros H. apply andb_prop in H. destruct H as [Hx Hv].
  rewrite (sub_self x Hx), (IH Hv). reflexivity.
Qed.

Lemma sqnorm_zeros (A : Type) (v : list A) :
  Np.sqnorm (map (fun _ => zero) v) = zero.
Proof.
  unfold Np.sqnorm. induction v as [|x v IH]; simpl; [reflexivity|exact IH].
Qed.

Lemma norm_sub_self (v : Np.vec) :
  Np.all_real v = true -> Np.norm_sub v v = Some zero.
Proof.
  intros H. unfold Np.norm_sub, Np.subtract. rewrite Nat.eqb_refl. simpl.
  rewrite (zip_sub_self v H). unfold Np.norm. rewrite sqnorm_zeros.
  reflexivity.
Qed.

Lemma binary_round_aux_nonneg (mx ex : Z) (lx : location) :
  ltb (binary_round_aux prec emax false mx ex lx) zero = false.
Proof.
  unfold binary_round_aux.
  destruct (shr_fexp prec emax mx ex lx) as [mrs' e'].
  destruct (shr_fexp prec emax _ e' loc_Exact) as [mrs'' e''].
  destruct (shr_m mrs''); [reflexivity | | reflexivity].
  destruct (Z.leb e'' (emax - prec)); reflexivity.
Qed.

Lemma sqrt_nonneg (x : float) : ltb (Flt.sqrt x) zero = false.
Proof.
  destruct x as [s|[]| |[] m e]; try reflexivity.
  unfold Flt.sqrt, SFsqrt.
  destruct (SFsqrt_core_binary prec emax (Z.pos m) e) as [[mz ez] lz].
  apply binary_round_aux_nonneg.
Qed.

Lemma norm_sub_nonneg (a b : Np.vec) (d : float) :
  Np.norm_sub a b = Some d -> ltb d zero = false.
Proof.
  unfold Np.norm_sub. destruct (Np.subtract a b) as [x|]; simpl; [|discriminate].
  intros [= <-]. apply sqrt_nonneg.
Qed.

Lemma subtract_same_length (a b : Np.vec) :
  List.length b = List.length a -> Np.subtract a b = Some (Np.zip_sub a b).
Proof. intros H. unfold Np.subtract. rewrite H, Nat.eqb_refl. reflexivity. Qed.

Lemma ltb_zero_umbral (d : float) :
  is_zero d = true -> ltb d umbral_default = true.
Proof. destruct d; simpl; try discriminate. reflexivity. Qed.

(** A float that is neither below nor above zero, and no NaN, is a zero. *)
Lemma not_ltb_zero (d z : float) :
  is_zero z = true -> is_nan d = false ->
  ltb d z = false -> ltb z d = false -> is_zero d = true.
Proof.
  destruct z as [sz| | |]; simpl; try discriminate. intros _.
  destruct d as [s|[]| |[] m e]; simpl; try reflexivity; discriminate.
Qed.

Lemma ltb_zeros (a b : float) :
  is_zero a = true -> is_zero b = true -> ltb a b = false.
Proof. destruct a, b; simpl; try discriminate. reflexivity. Qed.

Lemma find_first (A : Type) (p : A -> bool) (pre post : list A) (x : A) :
  p x = true -> (forall c, In c pre -> p c = false) ->
  find p (pre ++ x :: post) = Some x.
Proof.
  intros Hx. induction pre as [|c pre IH]; intros H; simpl.
  - rewrite Hx. reflexivity.
  - rewrite (H c (or_introl eq_refl)). apply IH. intros c' Hc'.
    apply H. right. exact Hc'.
Qed.

Section Distances.

Variable Emb : Type.
Variable norm_sub : Emb -> Emb -> option float.

Lemma distances_In (embedding : Emb) (refs : list (string * Emb))
    (cands : list (string * float)) (n : string) (e : Emb) :
  distances norm_sub embedding refs = Some cands -> In (n, e) refs ->
  exists d, norm_sub embedding e = Some d /\ In (n, d) cands.
Proof.
  revert cands. induction refs as [|[n' e'] refs IH]; intros cands H Hin;
    [destruct Hin|].
  simpl in H. destruct (norm_sub embedding e') as [d'|] eqn:E'; simpl in H;
    [|discriminate].
  destruct (distances norm_sub embedding refs) as [ds|]; simpl in H;
    [|discriminate].
  injection H as <-. destruct Hin as [[= -> ->] | Hin].
  - exists d'. split; [exact E' | left; reflexivity].
  - destruct (IH ds eq_refl Hin) as (d & Hd & Hind).
    exists d. split; [exact Hd | right; exact Hind].
Qed.

Lemma In_distances (embedding : Emb) (refs : list (string * Emb))
    (cands : list (string * float)) (n : string) (d : float) :
  distances norm_sub embedding refs = Some cands -> In (n, d) cands ->
  exists e, In (n, e) refs /\ norm_sub embedding e = Some d.
Proof.
  revert cands. induction refs as [|[n' e'] refs IH]; intros cands H Hin;
    simpl in H.
  - injection H as <-. destruct Hin.
  - destruct (norm_sub embedding e') as [d'|] eqn:E'; simpl in H;
      [|discriminate].
    destruct (distances norm_sub embedding refs) as [ds|]; simpl in H;
      [|discriminate].
    injection H as <-. destruct Hin as [[= -> ->] | Hin].
    + exists e'. split; [left; reflexivity | exact E'].
    + destruct (IH ds eq_refl Hin) as (e & He & Hd).
      exists e. split; [right; exact He | exact Hd].
Qed.

Lemma distances_defined (embedding : Emb) (refs : list (string * Emb)) :
  (forall n e, In (n, e) refs -> norm_sub embedding e <> None) ->
  exists cands, distances norm_sub embedding refs = Some cands.
Proof.
  induction refs as [|[n e] refs IH]; intros H; simpl.
  - exists []. reflexivity.
  - destruct (norm_sub embedding e) as [d|] eqn:E.
    + destruct IH as [ds Hds]; [intros n' e' Hin; apply (H n' e'); right; exact Hin|].
      rewrite Hds. simpl. eexists; reflexivity.
    + exfalso. apply (H n e); [left; reflexivity | exact E].
Qed.

Lemma In_references (base_datos : Store Emb) (n : string) (e : Emb) :
  In (n, e) (references base_datos) <->
  exists emb_list, In (n, emb_list) base_datos /\ In e emb_list.
Proof.
  unfold references. rewrite in_flat_map. split.
  - intros ([n' l] & Hitem & Hin). simpl in Hin. apply in_map_iff in Hin.
    destruct Hin as (e' & [= -> ->] & He). exists l. auto.
  - intros (l & Hitem & He). exists (n, l). split; [exact Hitem|].
    simpl. apply in_map. exact He.
Qed.

End Distances.

Lemma same_dim_defined (probe : Np.vec) (base_datos : Store Np.vec) :
  Np.same_dim (List.length probe) base_datos = true ->
  exists cands,
    distances Np.norm_sub probe (references base_datos) = Some cands.
Proof.
  intros H. apply distances_defined. intros n e Hin.
  apply In_references in Hin. destruct Hin as (l & Hitem & He).
  unfold Np.same_dim in H. rewrite forallb_forall in H.
  specialize (H _ Hitem). simpl in H. rewrite forallb_forall in H.
  specialize (H _ He). apply Nat.eqb_eq in H.
  unfold Np.norm_sub. rewrite (subtract_same_length probe e H). discriminate.
Qed.

(** C8, as amended. For every probe whose components are numbers and that
    equals a reference vector stored under [nombre], in a store whose vectors
    all have the probe's dimension, the match with the default threshold
    returns distance 0 and the label of the first reference, in iteration
    order, whose distance to the probe is 0. That label is [nombre] whenever
    every reference at distance 0 from the probe is stored under
    [nombre]. *)
Theorem exact_probe_match (probe : Np.vec) (base_datos : Store Np.vec)
    (nombre : string) (emb_list : list Np.vec) :
  Np.all_real probe = true ->
  Np.same_dim (List.length probe) base_datos = true ->
  In (nombre, emb_list) base_datos ->
  In probe emb_list ->
  exists cands nombre' d,
    distances Np.norm_sub probe (references base_datos) = Some cands /\
    closest_match Np.norm_sub umbral_default probe base_datos
      = Some (nombre', d) /\
    is_zero d = true /\
    find (fun c => is_zero (snd c)) cands = Some (nombre', d) /\
    ((forall n e d',
        In (n, e) (references base_datos) ->
        Np.norm_sub probe e = Some d' -> is_zero d' = true -> n = nombre) ->
     nombre' = nombre).
Proof.
  intros Hreal Hdim Hitem Hprobe.
  destruct (same_dim_defined probe base_datos Hdim) as [cands Hc].
  pose proof (scan_store_fold _ _ umbral_default _ _ desconocido _ Hc) as Hr.
  pose proof (fold_step_scanned umbral_default cands) as Hs.
  fold (closest_match Np.norm_sub umbral_default probe base_datos) in Hr.
  remember (fold_left (step umbral_default) cands desconocido) as r eqn:Er.
  clear Er.
  assert (Hin : In (nombre, probe) (references base_datos))
    by (apply In_references; exists emb_list; auto).
  destruct (distances_In _ _ _ _ _ _ _ Hc Hin) as (d0 & Hd0 & Hin0).
  rewrite (norm_sub_self probe Hreal) in Hd0. injection Hd0 as <-.
  assert (Hnn : forall c, In c cands -> ltb (snd c) zero = false).
  { intros [n d] Hcin. destruct (In_distances _ _ _ _ _ _ _ Hc Hcin)
      as (e & _ & He). exact (norm_sub_nonneg _ _ _ He). }
  destruct Hs as [[_ Hnone] | (pre & post & Hsplit & Hru & Hpre & Hpost)].
  { specialize (Hnone _ Hin0). simpl in Hnone. discriminate. }
  destruct r as [n' d']. simpl in *.
  assert (Hrin : In (n', d') cands)
    by (rewrite Hsplit; apply in_or_app; right; left; reflexivity).
  assert (Hge : ltb d' zero = false) by exact (Hnn _ Hrin).
  assert (Hz : is_zero d' = true).
  { rewrite Hsplit in Hin0. apply in_app_or in Hin0.
    destruct Hin0 as [H0 | [[= -> ->] | H0]].
    - specialize (Hpre _ H0 eq_refl). simpl in Hpre.
      rewrite Hge in Hpre. discriminate.
    - reflexivity.
    - apply (not_ltb_zero d' zero eq_refl).
      + exact (ltb_not_nan _ _ Hru).
      + exact Hge.
      + exact (Hpost _ H0). }
  exists cands, n', d'. repeat split; auto.
  - rewrite Hsplit. apply find_first; [exact Hz|].
    intros [n d] Hcin. simpl. destruct (is_zero d) eqn:Ed; [|reflexivity].
    specialize (Hpre _ Hcin (ltb_zero_umbral d Ed)). simpl in Hpre.
    rewrite (ltb_zeros d' d Hz Ed) in Hpre. discriminate.
  - intros Huniq.
    destruct (In_distances _ _ _ _ _ _ _ Hc Hrin) as (e & He & Hde).
    exact (Huniq _ _ _ He Hde Hz).
Qed.

(** ** The recognition pipeline *)

(** *** The per-face block *)

Lemma reconocer_persona_try_stateless (env : Env) (img : ndarray)
    (emb : Embedder) (db : Database) (u : float) (st : State) :
  reconocer_persona_try env img emb db u st =
  (st, snd (fst (reconocer_persona_try env img emb db u initial)),
   snd (reconocer_persona_try env img emb db u initial)).
Proof.
  unfold reconocer_persona_try, bindM, lift, emit.
  destruct (ensure_rgb img) as [img'|]; simpl; [|reflexivity].
  destruct (cv2_resize env img') as [f|]; simpl; [|reflexivity].
  destruct (embeddings env emb f) as [v|]; simpl; [|reflexivity].
  destruct (closest_match Np.norm_sub u v (db_items db)); reflexivity.
Qed.

Lemma reconocer_persona_run (env : Env) (img : ndarray) (emb : Embedder)
    (db : Database) (u : float) (st : State) :
  reconocer_persona env img emb db u st =
  (st, fst (persona_outcome env img emb db u),
   Some (snd (persona_outcome env img emb db u))).
Proof.
  unfold persona_outcome, reconocer_persona, try_except.
  rewrite (reconocer_persona_try_stateless env img emb db u st).
  destruct (reconocer_persona_try env img emb db u initial) as [[s t] [r|]];
    simpl; [reflexivity|].
  rewrite app_nil_r. reflexivity.
Qed.

Lemma cara_body_run (env : Env) (arr : ndarray) (emb : Embedder)
    (db : Database) (box : Z * Z * Z * Z) (acc : list resultado)
    (st : State) :
  cara_body env arr emb db box acc st =
  (st, face_trace env arr emb db box,
   Some (acc ++ [resultado_de env arr emb db box])).
Proof.
  unfold cara_body, resultado_de, face_trace.
  destruct box as [[[x y] w] h].
  destruct (clip arr (x, y, w, h)) as [[[x' y'] x2] y2] eqn:Ec.
  unfold bindM. rewrite reconocer_persona_run. simpl.
  rewrite app_nil_r. reflexivity.
Qed.

Lemma for_caras_run (env : Env) (arr : ndarray) (emb : Embedder)
    (db : Database) (dets : list (Z * Z * Z * Z)) (acc : list resultado)
    (st : State) :
  for_caras env arr emb db dets acc st =
  (st, flat_map (face_trace env arr emb db) dets,
   Some (acc ++ map (resultado_de env arr emb db) dets)).
Proof.
  revert acc. induction dets as [|box dets IH]; intros acc; simpl.
  - rewrite app_nil_r. reflexivity.
  - unfold bindM. rewrite cara_body_run, IH, <- app_assoc. reflexivity.
Qed.

(** *** [reconocer] once the getters have returned *)

Lemma reconocer_getters (env : Env) (body : string) (st : State) :
  reconocer env body st =
  match getters env st with
  | (st1, t1, Some (Some d, Some e, Some db)) =>
      match decode_request env body with
      | Some arr =>
          match detect_faces env d arr with
          | Some dets =>
              (st1,
               t1 ++ EvRequest :: EvDetect arr
                  :: flat_map (face_trace env arr e db) dets,
               Some (Success (map (resultado_de env arr e db) dets)))
          | None => (st1, t1 ++ [EvRequest; EvDetect arr], Some Failure)
          end
      | None => (st1, t1 ++ [EvRequest], Some Failure)
      end
  | (st1, t1, Some (det, emb, db)) =>
      (st1, t1,
       Some (NotReady (is_not_None det) (is_not_None emb) (is_not_None db)))
  | (st1, t1, None) => (st1, t1, Some Failure)
  end.
Proof.
  unfold reconocer, getters, try_except, bindM.
  destruct (get_detector env st) as [[s1 t1] [det|]]; simpl;
    [|rewrite app_nil_r; reflexivity].
  destruct (get_embedder env s1) as [[s2 t2] [emb|]]; simpl;
    [|rewrite app_nil_r; reflexivity].
  destruct (get_database env s2) as [[s3 t3] [db|]]; simpl;
    [|rewrite !app_nil_r; reflexivity].
  rewrite !app_nil_r.
  destruct det as [d|], emb as [e|], db as [b|]; simpl;
    try (rewrite !app_nil_r; reflexivity).
  unfold lift, emit, ret; simpl.
  destruct (decode_request env body) as [arr|]; simpl;
    [|rewrite !app_nil_r, <- !app_assoc; reflexivity].
  destruct (detect_faces env d arr) as [dets|]; simpl;
    [|rewrite !app_nil_r, <- !app_assoc; reflexivity].
  rewrite for_caras_run. simpl.
  rewrite !app_nil_r, <- !app_assoc. reflexivity.
Qed.

(** *** The getters *)

Lemma get_detector_run (env : Env) (st : State) :
  get_detector env st =
  match detector st with
  | Some d => (st, [], Some (Some d))
  | None =>
      if mtcnn_loads env then
        let d := {| det_id := next_id st; det_preloaded := false |} in
        ({| detector := Some d; embedder := embedder st;
            database := database st; models_loaded := models_loaded st;
            next_id := S (next_id st) |},
         [EvInit SlotDetector (next_id st)], Some (Some d))
      else (st, [], None)
  end.
Proof.
  unfold get_detector, bindM, read, new_MTCNN. simpl.
  destruct (detector st) as [d|] eqn:E; simpl.
  - rewrite E. reflexivity.
  - destruct (mtcnn_loads env); reflexivity.
Qed.

Lemma get_embedder_run (env : Env) (st : State) :
  get_embedder env st =
  match embedder st with
  | Some e => (st, [], Some (Some e))
  | None =>
      if facenet_loads env then
        let e := {| emb_id := next_id st |} in
        ({| detector := detector st; embedder := Some e;
            database := database st; models_loaded := models_loaded st;
            next_id := S (next_id st) |},
         [EvInit SlotEmbedder (next_id st)], Some (Some e))
      else (st, [], None)
  end.
Proof.
  unfold get_embedder, bindM, read, new_FaceNet. simpl.
  destruct (embedder st) as [e|] eqn:E; simpl.
  - rewrite E. reflexivity.
  - destruct (facenet_loads env); reflexivity.
Qed.

Lemma get_database_run (env : Env) (st : State) :
  get_database env st =
  match database st with
  | Some db => (st, [], Some (Some db))
  | None =>
      match pickle_load env with
      | Some (Some items) =>
          let db := {| db_id := next_id st; db_items := items |} in
          ({| detector := detector st; embedder := embedder st;
              database := Some db; models_loaded := models_loaded st;
              next_id := S (next_id st) |},
           [EvInit SlotDatabase (next_id st)], Some (Some db))
      | Some None =>
          ({| detector := detector st; embedder := embedder st;
              database := None; models_loaded := models_loaded st;
              next_id := next_id st |},
           [], Some None)
      | None => (st, [], None)
      end
  end.
Proof.
  unfold get_database, bindM, read, lift. simpl.
  destruct (database st) as [db|] eqn:E; simpl.
  - rewrite E. reflexivity.
  - destruct (pickle_load env) as [[items|]|]; reflexivity.
Qed.

Lemma getters_warm (env : Env) (st : State) (d : Detector) (e : Embedder)
    (db : Database) :
  detector st = Some d -> embedder st = Some e -> database st = Some db ->
  getters env st = (st, [], Some (Some d, Some e, Some db)).
Proof.
  intros Hd He Hdb. unfold getters, bindM.
  rewrite get_detector_run, Hd, get_embedder_run, He, get_database_run, Hdb.
  reflexivity.
Qed.

(** *** Clipping *)

(** C6, as amended. For every box [(x, y, w, h)] with non-negative [w] and
    [h], the clipped coordinates satisfy [0 <= x], [x2 <= image_width],
    [0 <= y] and [y2 <= image_height]; [x <= x2] holds exactly when the
    detector's [x] is at most [image_width], and [y <= y2] exactly when its
    [y] is at most [image_height]. *)
Theorem clip_bounds (arr : ndarray) (x y w h : Z) :
  0 <= w -> 0 <= h ->
  let '(x', y', x2, y2) := clip arr (x, y, w, h) in
  0 <= x' /\ x2 <= shape1 arr /\ 0 <= y' /\ y2 <= shape0 arr /\
  (x' <= x2 <-> x <= shape1 arr) /\ (y' <= y2 <-> y <= shape0 arr).
Proof.
  intros Hw Hh. unfold clip, shape0, shape1. lia.
Qed.

Lemma clip_origin (arr : ndarray) (x y w h : Z) :
  exists x2 y2, clip arr (x, y, w, h) = (Z.max 0 x, Z.max 0 y, x2, y2).
Proof. unfold clip. eexists _, _. reflexivity. Qed.

(** A box of no width or of no height crops to an empty array. *)
Lemma face_img_empty (arr : ndarray) (box : Z * Z * Z * Z) (x y x2 y2 : Z) :
  clip arr box = (x, y, x2, y2) ->
  x2 = x \/ y2 = y ->
  is_empty (face_img arr box) = true.
Proof.
  intros Hc Hz. unfold face_img. rewrite Hc. unfold is_empty, crop; simpl.
  apply orb_true_iff.
  destruct Hz as [-> | ->]; [right | left]; apply Nat.eqb_eq; lia.
Qed.

Lemma ensure_rgb_empty (img : ndarray) :
  is_empty img = true ->
  match ensure_rgb img with
  | Some img' => is_empty img' = true
  | None => True
  end.
Proof.
  intros H. unfold ensure_rgb, cvtColor_GRAY2RGB, cvtColor_RGBA2RGB.
  rewrite H. destruct (ndim img =? 2); [exact I|].
  destruct (chans img) as [[|[|[|[|[|n]]]]]|]; auto.
Qed.

Lemma persona_outcome_empty (env : Env) (img : ndarray) (emb : Embedder)
    (db : Database) (u : float) :
  is_empty img = true ->
  persona_outcome env img emb db u = ([], error_result).
Proof.
  intros H. pose proof (ensure_rgb_empty img H) as He.
  unfold persona_outcome, reconocer_persona, reconocer_persona_try,
    try_except, bindM, lift, cv2_resize.
  destruct (ensure_rgb img) as [img'|]; simpl; [|reflexivity].
  rewrite He. reflexivity.
Qed.

(** *** The replies of [reconocer] *)

(** Case analysis on the three slots and, for an unset slot, on what its
    loader does; the getters are then run. *)
Ltac case_getters env st :=
  destruct st as [?sd ?se ?sb ?ml ?nid];
  destruct sd as [?d|]; [|destruct (mtcnn_loads env) eqn:?Hm];
  (destruct se as [?e|]; [|destruct (facenet_loads env) eqn:?Hf]);
  (destruct sb as [?b|];
   [|destruct (pickle_load env) as [[?items|]|] eqn:?Hp]);
  unfold getters, bindM;
  repeat (first [rewrite get_detector_run | rewrite get_embedder_run
                | rewrite get_database_run];
          cbn [detector embedder database next_id models_loaded];
          repeat match goal with
                 | H : _ = _ |- _ => rewrite H
                 end;
          cbv zeta);
  cbn [ret app fst snd is_not_None detector embedder database].

(** C4, as amended. [reconocer] always answers. A capability that is unset
    when it is called is loaded by its getter, and when the three loaders
    work the request is read and the answer is not the 503 reply. A loader
    that raises gives the generic 500 failure. The 503 reply
    [Models not ready yet] is given only when [database.pkl] unpickles to
    [None]; it is given before the request is read, the detector invoked or
    an embedding computed, and it reports the detector and the embedder as
    loaded and the database as not loaded. *)
Theorem not_ready_reply (env : Env) (body : string) (st : State) :
  let out := reconocer env body st in
  let st' := fst (fst out) in
  let t := snd (fst out) in
  let r := snd out in
  (exists resp, r = Some resp) /\
  ((detector st <> None \/ mtcnn_loads env = true) ->
   (embedder st <> None \/ facenet_loads env = true) ->
   (database st <> None \/ exists items, pickle_load env = Some (Some items)) ->
   detector st' <> None /\ embedder st' <> None /\ database st' <> None /\
   In EvRequest t /\ forall a b c, r <> Some (NotReady a b c)) /\
  ((detector st = None /\ mtcnn_loads env = false) \/
   (embedder st = None /\ facenet_loads env = false) \/
   (database st = None /\ pickle_load env = None) ->
   r = Some Failure) /\
  (forall a b c, r = Some (NotReady a b c) ->
     a = true /\ b = true /\ c = false /\
     database st = None /\ pickle_load env = Some None /\
     ~ In EvRequest t /\
     (forall arr, ~ In (EvDetect arr) t) /\
     (forall face, ~ In (EvEmbed face) t)).
Proof.
  cbv zeta. rewrite reconocer_getters.
  case_getters env st.
  all: try match goal with
           | |- context [decode_request ?e ?b] =>
               destruct (decode_request e b) as [arr|]
           end.
  all: try match goal with
           | |- context [detect_faces ?e ?d ?arr] =>
               destruct (detect_faces e d arr) as [dets|]
           end.
  all: cbn [fst snd detector embedder database].
  all: (split; [eexists; reflexivity|]).
  all: (split; [intros [H1|H1] [H2|H2] [H3|[? H3]]; try congruence;
                repeat split; try discriminate; try congruence;
                try (apply in_or_app; right; left; reflexivity);
                try (left; reflexivity);
                try (right; left; reflexivity);
                try (right; right; left; reflexivity);
                try (right; right; right; left; reflexivity)|]).
  all: (split; [intros [[H1 H2]|[[H1 H2]|[H1 H2]]]; congruence|]).
  all: intros fa fb fc H; try discriminate H.
  all: injection H as <- <- <-.
  all: repeat split; try reflexivity; try congruence.
  all: try (intros HIn; simpl in HIn; intuition discriminate).
  all: try (intros arr HIn; simpl in HIn; intuition discriminate).
Qed.

(** C2, as amended. For every detection whose clipped box has zero width
    or zero height, no embedding is computed, and one entry with label
    ["Error"], distance [+infinity] and the box [[x, y, w, h]] is emitted for
    it in the output sequence. *)
Theorem zero_area_face_is_error (env : Env) (body : string) (st st1 : State)
    (t1 : list event) (d : Detector) (e : Embedder) (db : Database)
    (arr : ndarray) (dets : list (Z * Z * Z * Z))
    (x0 y0 w h x y x2 y2 : Z) :
  getters env st = (st1, t1, Some (Some d, Some e, Some db)) ->
  decode_request env body = Some arr ->
  detect_faces env d arr = Some dets ->
  In (x0, y0, w, h) dets ->
  clip arr (x0, y0, w, h) = (x, y, x2, y2) ->
  x2 = x \/ y2 = y ->
  let err := {| nombre := "Error"; distancia := inf; bbox := [x; y; w; h] |} in
  face_trace env arr e db (x0, y0, w, h) = [] /\
  resultado_de env arr e db (x0, y0, w, h) = err /\
  exists rs,
    reconocer env body st =
      (st1,
       t1 ++ EvRequest :: EvDetect arr :: flat_map (face_trace env arr e db) dets,
       Some (Success rs)) /\
    rs = map (resultado_de env arr e db) dets /\
    In err rs.
Proof.
  intros Hg Hdec Hdet Hin Hc Hz err.
  pose proof (face_img_empty arr _ _ _ _ _ Hc Hz) as Hempty.
  assert (Ht : face_trace env arr e db (x0, y0, w, h) = []).
  { unfold face_trace. rewrite persona_outcome_empty by exact Hempty.
    reflexivity. }
  assert (Hr : resultado_de env arr e db (x0, y0, w, h) = err).
  { unfold resultado_de. rewrite Hc.
    rewrite persona_outcome_empty by exact Hempty. reflexivity. }
  split; [exact Ht|]. split; [exact Hr|].
  exists (map (resultado_de env arr e db) dets).
  split; [|split; [reflexivity|]].
  - rewrite reconocer_getters, Hg, Hdec, Hdet. reflexivity.
  - rewrite <- Hr. apply in_map. exact Hin.
Qed.

(** C9, as amended. For every image that decodes and on which the detector
    returns, [reconocer] answers with success and an ordered sequence that
    has one entry per detection, in the detector's emission order, none
    being dropped; when the detector finds no face the sequence is
    empty. *)
Theorem one_result_per_detection (env : Env) (body : string)
    (st st1 : State) (t1 : list event) (d : Detector) (e : Embedder)
    (db : Database) (arr : ndarray) (dets : list (Z * Z * Z * Z)) :
  getters env st = (st1, t1, Some (Some d, Some e, Some db)) ->
  decode_request env body = Some arr ->
  detect_faces env d arr = Some dets ->
  exists t rs,
    reconocer env body st = (st1, t, Some (Success rs)) /\
    List.length rs = List.length dets /\
    (forall i x y w h,
       nth_error dets i = Some (x, y, w, h) ->
       exists r,
         nth_error rs i = Some r /\
         r = resultado_de env arr e db (x, y, w, h) /\
         bbox r = [Z.max 0 x; Z.max 0 y; w; h]) /\
    (dets = [] -> rs = []).
Proof.
  intros Hg Hdec Hdet.
  eexists _, (map (resultado_de env arr e db) dets).
  split; [|split; [|split]].
  - rewrite reconocer_getters, Hg, Hdec, Hdet. reflexivity.
  - apply length_map.
  - intros i x y w h Hi. eexists. split; [|split; [reflexivity|]].
    + rewrite nth_error_map, Hi. reflexivity.
    + unfold resultado_de.
      destruct (clip_origin arr x y w h) as (x2 & y2 & ->). reflexivity.
  - intros ->. reflexivity.
Qed.


(** *** Colour conversion *)

Lemma ensure_rgb_converts (img : ndarray) :
  is_empty img = false ->
  cvt_depth (dtype img) = true ->
  ndim img = 2 \/ chans img = Some 4%nat ->
  exists img',
    ensure_rgb img = Some img' /\
    chans img' = Some 3%nat /\ rows img' = rows img /\ cols img' = cols img /\
    dtype img' = dtype img /\
    (forall r c k,
       pix img' r c k = pix img r c (if ndim img =? 2 then 0%nat else k)).
Proof.
  intros Hne Hdepth Hfmt.
  unfold ensure_rgb, cvtColor_GRAY2RGB, cvtColor_RGBA2RGB.
  rewrite Hne, Hdepth. unfold ndim in *.
  destruct (chans img) as [n|] eqn:Ec.
  - destruct Hfmt as [Hfmt | [= ->]]; [discriminate|]. simpl.
    eexists. split; [reflexivity|]. simpl. auto.
  - simpl. eexists. split; [reflexivity|]. simpl. auto.
Qed.

(** On an element type that [cv2.cvtColor] does not convert, the conversion
    raises. *)
Lemma ensure_rgb_unsupported (img : ndarray) :
  cvt_depth (dtype img) = false ->
  ndim img = 2 \/ chans img = Some 4%nat ->
  ensure_rgb img = None.
Proof.
  intros Hdepth Hfmt.
  unfold ensure_rgb, cvtColor_GRAY2RGB, cvtColor_RGBA2RGB.
  rewrite Hdepth. unfold ndim in *.
  destruct (chans img) as [n|] eqn:Ec.
  - destruct Hfmt as [Hfmt | [= ->]]; [discriminate|]. simpl.
    destruct (is_empty img); reflexivity.
  - simpl. destruct (is_empty img); reflexivity.
Qed.

Lemma persona_outcome_unconverted (env : Env) (img : ndarray)
    (emb : Embedder) (db : Database) (u : float) :
  ensure_rgb img = None ->
  persona_outcome env img emb db u = ([], error_result).
Proof.
  intros He.
  unfold persona_outcome, reconocer_persona, reconocer_persona_try,
    try_except, bindM, lift.
  rewrite He. reflexivity.
Qed.

Lemma face_img_dtype (arr : ndarray) (box : Z * Z * Z * Z) :
  dtype (face_img arr box) = dtype arr.
Proof. destruct box as [[[x y] w] h]. reflexivity. Qed.

Lemma persona_trace_converted (env : Env) (img img' : ndarray)
    (emb : Embedder) (db : Database) (u : float) :
  ensure_rgb img = Some img' -> is_empty img' = false ->
  fst (persona_outcome env img emb db u) =
  match resize_160 env img' with
  | Some face => [EvEmbed face]
  | None => []
  end.
Proof.
  intros He Hne.
  unfold persona_outcome, reconocer_persona, reconocer_persona_try,
    try_except, bindM, lift, emit, ret, cv2_resize.
  rewrite He. simpl. rewrite Hne.
  destruct (resize_160 env img') as [face|]; simpl; [|reflexivity].
  destruct (embeddings env emb face) as [v|]; simpl; [|reflexivity].
  destruct (closest_match Np.norm_sub u v (db_items db)); reflexivity.
Qed.

(** C5, as amended. The detector is invoked on the decoded pixel array as
    it is. Each face region that is not empty, that is grayscale or RGBA and
    whose elements are of a type that [cv2.cvtColor] converts (8-bit
    unsigned, as Pillow decodes images of mode L, RGB and RGBA; 16-bit
    unsigned; 32-bit float) is converted to 3-channel RGB (grayscale by
    replication, RGBA by dropping alpha) before it is resized, and only the
    resized conversion reaches the embedder. A grayscale or RGBA region of
    another element type (the booleans of a mode-1 image, 32-bit integers)
    makes [cv2.cvtColor] raise: nothing reaches the embedder and its entry
    is [("Error", inf)]. *)
Theorem rgb_conversion_is_per_face (env : Env) (body : string)
    (st st1 : State) (t1 : list event) (d : Detector) (e : Embedder)
    (db : Database) (arr : ndarray) (dets : list (Z * Z * Z * Z)) :
  getters env st = (st1, t1, Some (Some d, Some e, Some db)) ->
  decode_request env body = Some arr ->
  detect_faces env d arr = Some dets ->
  (exists rs,
     reconocer env body st =
       (st1,
        t1 ++ EvRequest :: EvDetect arr
           :: flat_map (face_trace env arr e db) dets,
        Some (Success rs))) /\
  (forall box,
     In box dets ->
     is_empty (face_img arr box) = false ->
     ndim (face_img arr box) = 2 \/ chans (face_img arr box) = Some 4%nat ->
     In (dtype arr) [np_uint8; np_uint16; np_float32] ->
     exists img',
       ensure_rgb (face_img arr box) = Some img' /\
       chans img' = Some 3%nat /\
       rows img' = rows (face_img arr box) /\
       cols img' = cols (face_img arr box) /\
       dtype img' = dtype arr /\
       (forall r c k,
          pix img' r c k =
          pix (face_img arr box) r c
            (if ndim (face_img arr box) =? 2 then 0%nat else k)) /\
       face_trace env arr e db box =
         match resize_160 env img' with
         | Some face => [EvEmbed face]
         | None => []
         end) /\
  (forall box,
     In box dets ->
     ndim (face_img arr box) = 2 \/ chans (face_img arr box) = Some 4%nat ->
     In (dtype arr) [np_bool; np_int32] ->
     ensure_rgb (face_img arr box) = None /\
     face_trace env arr e db box = [] /\
     is_error (resultado_de env arr e db box) = true).
Proof.
  intros Hg Hdec Hdet. split; [|split].
  - eexists. rewrite reconocer_getters, Hg, Hdec, Hdet. reflexivity.
  - intros box _ Hne Hfmt Hin.
    assert (Hdepth : cvt_depth (dtype (face_img arr box)) = true).
    { rewrite face_img_dtype.
      destruct Hin as [<- | [<- | [<- | []]]]; reflexivity. }
    destruct (ensure_rgb_converts _ Hne Hdepth Hfmt)
      as (img' & He & Hc & Hr & Hcl & Hdt & Hp).
    exists img'. rewrite <- (face_img_dtype arr box).
    repeat split; auto.
    unfold face_trace. apply persona_trace_converted; [exact He|].
    unfold is_empty in *. rewrite Hr, Hcl. exact Hne.
  - intros box _ Hfmt Hin.
    assert (Hdepth : cvt_depth (dtype (face_img arr box)) = false).
    { rewrite face_img_dtype.
      destruct Hin as [<- | [<- | []]]; reflexivity. }
    pose proof (ensure_rgb_unsupported _ Hdepth Hfmt) as He.
    pose proof (persona_outcome_unconverted env _ e db umbral_default He)
      as Ho.
    split; [exact He|]. split.
    + unfold face_trace. rewrite Ho. reflexivity.
    + unfold resultado_de. rewrite Ho.
      destruct box as [[[x y] w] h].
      destruct (clip arr (x, y, w, h)) as [[[x' y'] x2] y2]. reflexivity.
Qed.


(** C10. The box reported for each detection [(x, y, w, h)] is
    [[max 0 x, max 0 y, w, h]]: a clamped origin with the detector's width
    and height. There are boxes for which the reported box reaches past the
    image on both axes and differs from the region that was cropped. *)
Theorem reported_bbox (env : Env) (body : string) (st st1 : State)
    (t1 : list event) (d : Detector) (e : Embedder) (db : Database)
    (arr : ndarray) (dets : list (Z * Z * Z * Z)) :
  getters env st = (st1, t1, Some (Some d, Some e, Some db)) ->
  decode_request env body = Some arr ->
  detect_faces env d arr = Some dets ->
  (exists t rs,
     reconocer env body st = (st1, t, Some (Success rs)) /\
     map bbox rs =
       map (fun box => let '(x, y, w, h) := box in
                       [Z.max 0 x; Z.max 0 y; w; h]) dets) /\
  (exists (img : ndarray) (x y w h : Z),
     0 <= w /\ 0 <= h /\
     bbox (resultado_de env img e db (x, y, w, h))
       = [Z.max 0 x; Z.max 0 y; w; h] /\
     shape1 img < Z.max 0 x + w /\
     shape0 img < Z.max 0 y + h /\
     Z.of_nat (cols (face_img img (x, y, w, h))) <> w /\
     Z.of_nat (rows (face_img img (x, y, w, h))) <> h).
Proof.
  intros Hg Hdec Hdet. split.
  - eexists _, (map (resultado_de env arr e db) dets). split.
    + rewrite reconocer_getters, Hg, Hdec, Hdet. reflexivity.
    + rewrite map_map. apply map_ext. intros [[[x y] w] h].
      unfold resultado_de.
      destruct (clip_origin arr x y w h) as (x2 & y2 & ->). reflexivity.
  - exists {| rows := 10; cols := 10; chans := Some 3%nat;
              dtype := np_uint8; pix := fun _ _ _ => 0 |}, 6, 7, 8, 9.
    repeat split; try lia; discriminate.
Qed.


(** *** A face that raises *)

Section ScanNotInf.

Variable Emb : Type.
Variable norm_sub : Emb -> Emb -> option float.

Lemma update_settled (umbral : float) (b : best) (n : string) (d : float) :
  settled b -> settled (update umbral b n d).
Proof.
  intros Hb. unfold update.
  destruct (ltb d (snd b)) eqn:E; simpl; [|exact Hb].
  destruct (ltb d umbral); [|exact Hb].
  right. simpl. destruct d as [s|[]| |s m e]; try reflexivity.
  rewrite ltb_inf_l in E. discriminate.
Qed.

Lemma scan_embs_settled (umbral : float) (v : Emb) (n : string)
    (l : list Emb) (b r : best) :
  settled b -> scan_embs norm_sub umbral v n l b = Some r -> settled r.
Proof.
  revert b. induction l as [|e l IH]; intros b Hb H; simpl in H.
  - injection H as <-. exact Hb.
  - destruct (norm_sub v e) as [d|]; simpl in H; [|discriminate].
    apply (IH _ (update_settled umbral b n d Hb) H).
Qed.

Lemma scan_store_settled (umbral : float) (v : Emb) (items : Store Emb)
    (b r : best) :
  settled b -> scan_store norm_sub umbral v items b = Some r -> settled r.
Proof.
  revert b. induction items as [|[n l] items IH]; intros b Hb H; simpl in H.
  - injection H as <-. exact Hb.
  - destruct (scan_embs norm_sub umbral v n l b) as [b'|] eqn:E; simpl in H;
      [|discriminate].
    apply (IH b' (scan_embs_settled _ _ _ _ _ _ Hb E) H).
Qed.

Lemma closest_match_settled (umbral : float) (v : Emb) (items : Store Emb)
    (r : best) :
  closest_match norm_sub umbral v items = Some r -> settled r.
Proof. apply scan_store_settled. left. reflexivity. Qed.

End ScanNotInf.

Lemma settled_not_error (r : best) (box : list Z) :
  settled r ->
  is_error {| nombre := fst r; distancia := snd r; bbox := box |} = false.
Proof.
  unfold is_error. simpl. intros [-> | H].
  - reflexivity.
  - rewrite H. apply andb_false_r.
Qed.

Lemma try_settled (env : Env) (img : ndarray) (emb : Embedder)
    (db : Database) (u : float) (st st' : State) (t : list event)
    (r : best) :
  reconocer_persona_try env img emb db u st = (st', t, Some r) -> settled r.
Proof.
  unfold reconocer_persona_try, bindM, lift, emit.
  destruct (ensure_rgb img) as [img'|]; simpl; [|discriminate].
  destruct (cv2_resize env img') as [f|]; simpl; [|discriminate].
  destruct (embeddings env emb f) as [v|]; simpl; [|discriminate].
  destruct (closest_match Np.norm_sub u v (db_items db)) as [b|] eqn:E;
    simpl; [|discriminate].
  intros [= _ _ <-]. exact (closest_match_settled _ _ _ _ _ _ E).
Qed.

Lemma resultado_de_fails (env : Env) (arr : ndarray) (emb : Embedder)
    (db : Database) (box : Z * Z * Z * Z) :
  face_fails env arr emb db box = true ->
  nombre (resultado_de env arr emb db box) = "Error"%string /\
  distancia (resultado_de env arr emb db box) = inf /\
  is_error (resultado_de env arr emb db box) = true.
Proof.
  unfold face_fails, resultado_de, persona_outcome, reconocer_persona,
    try_except.
  destruct box as [[[x y] w] h].
  destruct (clip arr (x, y, w, h)) as [[[x' y'] x2] y2].
  destruct (reconocer_persona_try env (face_img arr (x, y, w, h)) emb db
              umbral_default initial) as [[s t] [r|]]; [discriminate|].
  intros _. simpl. auto.
Qed.

Lemma resultado_de_resolved (env : Env) (arr : ndarray) (emb : Embedder)
    (db : Database) (box : Z * Z * Z * Z) (st : State) :
  face_fails env arr emb db box = false ->
  exists t r,
    reconocer_persona_try env (face_img arr box) emb db umbral_default st
      = (st, t, Some r) /\
    nombre (resultado_de env arr emb db box) = fst r /\
    distancia (resultado_de env arr emb db box) = snd r /\
    is_error (resultado_de env arr emb db box) = false.
Proof.
  unfold face_fails, resultado_de, persona_outcome, reconocer_persona,
    try_except.
  rewrite (reconocer_persona_try_stateless env _ emb db umbral_default st).
  destruct box as [[[x y] w] h].
  destruct (clip arr (x, y, w, h)) as [[[x' y'] x2] y2].
  destruct (reconocer_persona_try env (face_img arr (x, y, w, h)) emb db
              umbral_default initial) as [[s t] [r|]] eqn:E; [|discriminate].
  intros _. exists t, r. simpl. repeat split.
  apply settled_not_error. exact (try_settled _ _ _ _ _ _ _ _ _ E).
Qed.

Lemma filter_none (A : Type) (p : A -> bool) (l : list A) :
  (forall a, In a l -> p a = false) -> filter p l = [].
Proof.
  induction l as [|a l IH]; intros H; simpl; [reflexivity|].
  rewrite (H a (or_introl eq_refl)). apply IH. intros b Hb. apply H.
  right. exact Hb.
Qed.

(** C7. When the detector emits [N] faces and the per-face processing
    raises for exactly one of them, [reconocer] answers with success and
    exactly [N] entries; exactly one entry is the pair
    [("Error", +infinity)], at the position of the failing face, and each of
    the others carries the label and the distance that the matching returns
    for its face. *)
Theorem one_bad_face (env : Env) (body : string) (st st1 : State)
    (t1 : list event) (d : Detector) (e : Embedder) (db : Database)
    (arr : ndarray) (pre post : list (Z * Z * Z * Z))
    (bad : Z * Z * Z * Z) :
  getters env st = (st1, t1, Some (Some d, Some e, Some db)) ->
  decode_request env body = Some arr ->
  detect_faces env d arr = Some (pre ++ bad :: post) ->
  face_fails env arr e db bad = true ->
  (forall box, In box (pre ++ post) -> face_fails env arr e db box = false) ->
  exists t rs,
    reconocer env body st = (st1, t, Some (Success rs)) /\
    List.length rs = List.length (pre ++ bad :: post) /\
    List.length (filter is_error rs) = 1%nat /\
    (exists r,
       nth_error rs (List.length pre) = Some r /\
       nombre r = "Error"%string /\ distancia r = inf) /\
    (forall i box,
       i <> List.length pre ->
       nth_error (pre ++ bad :: post) i = Some box ->
       exists r t' b,
         nth_error rs i = Some r /\
         reconocer_persona_try env (face_img arr box) e db umbral_default st1
           = (st1, t', Some b) /\
         nombre r = fst b /\ distancia r = snd b /\ is_error r = false).
Proof.
  intros Hg Hdec Hdet Hbad Hgood.
  eexists _, (map (resultado_de env arr e db) (pre ++ bad :: post)).
  split; [|split; [|split; [|split]]].
  - rewrite reconocer_getters, Hg, Hdec, Hdet. reflexivity.
  - apply length_map.
  - rewrite map_app, filter_app. simpl.
    destruct (resultado_de_fails env arr e db bad Hbad) as (_ & _ & ->).
    rewrite !filter_none; [reflexivity | |].
    + intros r Hr. apply in_map_iff in Hr. destruct Hr as (box & <- & Hin).
      destruct (resultado_de_resolved env arr e db box st1) as (_ & _ & _ & _ & _ & H).
      * apply Hgood. apply in_or_app. right. exact Hin.
      * exact H.
    + intros r Hr. apply in_map_iff in Hr. destruct Hr as (box & <- & Hin).
      destruct (resultado_de_resolved env arr e db box st1) as (_ & _ & _ & _ & _ & H).
      * apply Hgood. apply in_or_app. left. exact Hin.
      * exact H.
  - exists (resultado_de env arr e db bad). split.
    + rewrite nth_error_map, nth_error_app2, Nat.sub_diag by lia. reflexivity.
    + destruct (resultado_de_fails env arr e db bad Hbad) as (Hn & Hd & _). auto.
  - intros i box Hi Hnth.
    assert (Hin : In box (pre ++ post)).
    { destruct (Nat.lt_ge_cases i (List.length pre)) as [Hlt | Hge].
      - rewrite nth_error_app1 in Hnth by exact Hlt.
        apply in_or_app. left. exact (nth_error_In _ _ Hnth).
      - rewrite nth_error_app2 in Hnth by exact Hge.
        destruct (i - List.length pre)%nat as [|k] eqn:Ek; [lia|].
        simpl in Hnth. apply in_or_app. right. exact (nth_error_In _ _ Hnth). }
    destruct (resultado_de_resolved env arr e db box st1 (Hgood box Hin))
      as (t' & b & Ht & Hn & Hd & He).
    exists (resultado_de env arr e db box), t', b. repeat split; auto.
    rewrite nth_error_map, Hnth. reflexivity.
Qed.

(** ** The getters and the background thread *)

Lemma inits_app (s : slot) (t1 t2 : list event) :
  inits s (t1 ++ t2) = (inits s t1 + inits s t2)%nat.
Proof.
  induction t1 as [|[s' id| | |] t1 IH]; simpl; auto.
  rewrite IH. lia.
Qed.

Lemma get_pending (env : Env) (s s' : slot) (c : config) :
  (pending s (run_action env c (Get s')) <= pending s c)%nat.
Proof.
  unfold pending, run_action, getter, bindM.
  destruct c as [[sd se sb ml nid] p t obs].
  destruct s'; cbn [globals trace].
  - rewrite get_detector_run. cbn [detector next_id].
    destruct sd as [d|]; [|destruct (mtcnn_loads env)];
      destruct s; cbn; rewrite ?inits_app; cbn; lia.
  - rewrite get_embedder_run. cbn [embedder next_id].
    destruct se as [e|]; [|destruct (facenet_loads env)];
      destruct s; cbn; rewrite ?inits_app; cbn; lia.
  - rewrite get_database_run. cbn [database next_id].
    destruct sb as [b|]; [|destruct (pickle_load env) as [[items|]|]];
      destruct s; cbn; rewrite ?inits_app; cbn; lia.
Qed.

(** X1. Getter calls alone build at most one object for each slot. *)
Lemma getters_init_once (env : Env) (s : slot) (schedule : list action) :
  only_getters schedule = true ->
  (inits s (trace (run env schedule boot)) <= 1)%nat.
Proof.
  intros H.
  assert (G : forall c, (pending s (run env schedule c) <= pending s c)%nat).
  { induction schedule as [|a schedule IH]; intros c; [apply Nat.le_refl|].
    simpl in H. apply andb_prop in H. destruct H as [Ha Hs].
    destruct a as [|s']; [discriminate|].
    simpl. eapply Nat.le_trans; [apply (IH Hs) | apply get_pending]. }
  specialize (G boot). unfold pending in G.
  destruct (slot_set s (globals (run env schedule boot)));
    destruct s; cbn in G; lia.
Qed.

Lemma seen_app (s : slot) (o1 o2 : list observation) :
  seen s (o1 ++ o2) = seen s o1 ++ seen s o2.
Proof.
  induction o1 as [|[s' v] o1 IH]; simpl; [reflexivity|].
  destruct (slot_eqb s s'); simpl; rewrite IH; reflexivity.
Qed.

Lemma get_coherent (env : Env) (s s' : slot) (c : config) :
  coherent env s c -> coherent env s (run_action env c (Get s')).
Proof.
  unfold coherent, run_action, getter, bindM.
  destruct c as [[sd se sb ml nid] p t obs].
  cbn [globals trace observed]. intros H.
  destruct s'.
  - rewrite get_detector_run. cbn [detector next_id].
    destruct sd as [d|]; [|destruct (mtcnn_loads env)]; cbn;
      try exact H; intros v; rewrite seen_app; intros Hv;
      apply in_app_or in Hv; destruct Hv as [Hv | Hv];
      destruct s; cbn in *;
      try (apply H in Hv; cbn in Hv); intuition congruence.
  - rewrite get_embedder_run. cbn [embedder next_id].
    destruct se as [e|]; [|destruct (facenet_loads env)]; cbn;
      try exact H; intros v; rewrite seen_app; intros Hv;
      apply in_app_or in Hv; destruct Hv as [Hv | Hv];
      destruct s; cbn in *;
      try (apply H in Hv; cbn in Hv); intuition congruence.
  - rewrite get_database_run. cbn [database next_id].
    destruct sb as [b|]; [|destruct (pickle_load env) as [[items|]|] eqn:Hp];
      cbn; try exact H; intros v; rewrite seen_app; intros Hv;
      apply in_app_or in Hv; destruct Hv as [Hv | Hv];
      destruct s; cbn in *;
      try (apply H in Hv; cbn in Hv); intuition congruence.
Qed.

(** X2. With getter calls alone, the callers for a slot all receive the
    same object. *)
Lemma getters_same_instance (env : Env) (s : slot)
    (schedule : list action) (v w : option nat) :
  only_getters schedule = true ->
  In v (seen s (observed (run env schedule boot))) ->
  In w (seen s (observed (run env schedule boot))) ->
  v = w.
Proof.
  intros H.
  assert (G : forall c, coherent env s c -> coherent env s (run env schedule c)).
  { induction schedule as [|a schedule IH]; intros c Hc; [exact Hc|].
    simpl in H. apply andb_prop in H. destruct H as [Ha Hs].
    destruct a as [|s']; [discriminate|].
    simpl. apply (IH Hs). apply get_coherent. exact Hc. }
  assert (H0 : coherent env s boot) by (intros x []).
  specialize (G boot H0). unfold coherent in G.
  intros Hv Hw. apply G in Hv. apply G in Hw.
  destruct (slot_id s (globals (run env schedule boot))); intuition congruence.
Qed.

(** Once [load_models] has run in a process whose loaders work, [status]
    reports everything as ready. *)
Lemma status_after_load_models (env : Env) (st : State)
    (items : Store Np.vec) :
  mtcnn_loads env = true -> facenet_loads env = true ->
  pickle_load env = Some (Some items) ->
  snd (status (fst (fst (load_models env st))))
    = Some (true, true, true, true).
Proof.
  intros Hm Hf Hp.
  unfold load_models, preload_detector, preload_database, preload_embedder,
    new_MTCNN, new_FaceNet.
  rewrite Hm, Hf, Hp. reflexivity.
Qed.

(** C3, on the code. When a request thread calls [get_detector] before the
    background thread reaches its first assignment, the detector is built
    twice: the object the first caller received is replaced in the cache by
    the one [load_models] builds, and the next caller receives that other
    object. *)
Theorem preload_rebuilds_detector (env : Env) :
  mtcnn_loads env = true ->
  inits SlotDetector
    (trace (run env [Get SlotDetector; Bg; Get SlotDetector] boot)) = 2%nat /\
  seen SlotDetector
    (observed (run env [Get SlotDetector; Bg; Get SlotDetector] boot))
    = [Some 0%nat; Some 1%nat] /\
  detector (globals (run env [Get SlotDetector] boot))
    = Some {| det_id := 0; det_preloaded := false |} /\
  detector (globals (run env [Get SlotDetector; Bg] boot))
    = Some {| det_id := 1; det_preloaded := true |}.
Proof.
  intros H. unfold run, boot, initial. cbn [fold_left].
  unfold run_action, getter, load_models_step, preload_detector, new_MTCNN,
    get_detector, new_MTCNN.
  rewrite H. cbn. auto.
Qed.

(** Run from start to end with no other thread in between, [load_models] is
    its steps in order. *)
Lemma load_models_steps (env : Env) (st : State) :
  let c :=
    run env [Bg; Bg; Bg; Bg]
      {| globals := st; pc := BgDetector; trace := []; observed := [] |} in
  load_models env st = (globals c, trace c, Some tt) /\ pc c = BgDone.
Proof.
  destruct st as [sd se sb ml nid].
  unfold run, run_action, load_models, load_models_step, preload_detector,
    preload_database, preload_embedder, new_MTCNN, new_FaceNet.
  destruct (mtcnn_loads env), (facenet_loads env),
    (pickle_load env) as [[items|]|]; cbn; auto.
Qed.

(** ** Concrete runs *)

(** C1, at the probe [v1] and the store [{"alice": [v1], "bob": [v2]}]. *)
Lemma closest_match_rule_witness :
  distances Np.norm_sub v1 (references store_ab) = Some cands_ab /\
  exists r,
    closest_match Np.norm_sub umbral_default v1 store_ab = Some r /\
    r = fold_left (step umbral_default) cands_ab desconocido /\
    (forall b nombre d,
       (ltb d (snd b) = true /\ ltb d umbral_default = true ->
        update umbral_default b nombre d = (nombre, d)) /\
       (~ (ltb d (snd b) = true /\ ltb d umbral_default = true) ->
        update umbral_default b nombre d = b)) /\
    ((forall pre c post, cands_ab = pre ++ c :: post ->
        ltb (snd c) (snd (fold_left (step umbral_default) pre desconocido))
          && ltb (snd c) umbral_default = false) ->
     r = desconocido) /\
    scanned umbral_default cands_ab r.
Proof.
  split; [reflexivity|].
  apply (closest_match_rule Np.vec Np.norm_sub umbral_default v1 store_ab
           cands_ab).
  reflexivity.
Defined.

(** C8 as amended, at the probe [v1] and the store
    [{"alice": [v1], "bob": [v2]}]. *)
Lemma exact_probe_match_witness :
  Np.all_real v1 = true /\
  Np.same_dim (List.length v1) store_ab = true /\
  In ("alice"%string, [v1]) store_ab /\
  In v1 [v1] /\
  exists cands nombre' d,
    distances Np.norm_sub v1 (references store_ab) = Some cands /\
    closest_match Np.norm_sub umbral_default v1 store_ab
      = Some (nombre', d) /\
    is_zero d = true /\
    find (fun c => is_zero (snd c)) cands = Some (nombre', d) /\
    ((forall n e d',
        In (n, e) (references store_ab) ->
        Np.norm_sub v1 e = Some d' -> is_zero d' = true ->
        n = "alice"%string) ->
     nombre' = "alice"%string).
Proof.
  assert (H1 : Np.all_real v1 = true) by reflexivity.
  assert (H2 : Np.same_dim (List.length v1) store_ab = true) by reflexivity.
  assert (H3 : In ("alice"%string, [v1]) store_ab) by (left; reflexivity).
  assert (H4 : In v1 [v1]) by (left; reflexivity).
  repeat (split; [assumption|]).
  exact (exact_probe_match v1 store_ab "alice" [v1] H1 H2 H3 H4).
Defined.

(** C8 fails as stated: with [{"alice": [v1], "bob": [v1]}] the probe [v1]
    equals the reference stored under ["bob"], and the match returns
    ["alice"], the first label at distance 0. *)
Lemma duplicate_vector_first_label :
  Np.all_real v1 = true /\
  Np.same_dim (List.length v1) store_dup = true /\
  NoDup (map fst store_dup) /\
  In ("bob"%string, [v1]) store_dup /\
  In v1 [v1] /\
  closest_match Np.norm_sub umbral_default v1 store_dup
    = Some ("alice"%string, zero) /\
  "alice"%string <> "bob"%string.
Proof.
  repeat split; try reflexivity.
  - repeat constructor; simpl; intuition discriminate.
  - right. left. reflexivity.
  - left. reflexivity.
  - discriminate.
Qed.

(** C6 as amended, at the box [(15, 2, 5, 5)] on a 10 x 10 image. *)
Lemma clip_bounds_witness :
  0 <= 5 /\ 0 <= 5 /\
  let '(x', y', x2, y2) := clip rgb (15, 2, 5, 5) in
  0 <= x' /\ x2 <= shape1 rgb /\ 0 <= y' /\ y2 <= shape0 rgb /\
  (x' <= x2 <-> 15 <= shape1 rgb) /\ (y' <= y2 <-> 2 <= shape0 rgb).
Proof.
  assert (Hw : 0 <= 5) by lia.
  split; [exact Hw|]. split; [exact Hw|].
  exact (clip_bounds rgb 15 2 5 5 Hw Hw).
Defined.

(** C6 fails as stated: on a 10 x 10 image the box [(15, 2, 5, 5)] is
    clipped to [x = 15] and [x2 = 10]. *)
Lemma clip_origin_past_edge :
  0 <= 5 /\ shape1 rgb = 10 /\
  clip rgb (15, 2, 5, 5) = (15, 2, 10, 7) /\ ~ (15 <= 10).
Proof. repeat split; try reflexivity; lia. Qed.

(** C2 fails as stated: the box [(3, 3, 0, 5)] has zero width after
    clipping, and the output holds an entry for it. *)
Lemma zero_area_face_emitted :
  clip rgb (3, 3, 0, 5) = (3, 3, 3, 8) /\
  snd (reconocer (env_of rgb [(3, 3, 0, 5)]) "" warm)
    = Some (Success [error_entry [3; 3; 0; 5]]).
Proof. split; reflexivity. Qed.

(** C2 as amended, at the box [(3, 3, 0, 5)] on a 10 x 10 image. *)
Lemma zero_area_face_is_error_witness :
  getters (env_of rgb [(3, 3, 0, 5)]) warm =
    (warm, [], Some (Some the_detector, Some the_embedder, Some the_database)) /\
  decode_request (env_of rgb [(3, 3, 0, 5)]) "" = Some rgb /\
  detect_faces (env_of rgb [(3, 3, 0, 5)]) the_detector rgb
    = Some [(3, 3, 0, 5)] /\
  In (3, 3, 0, 5) [(3, 3, 0, 5)] /\
  clip rgb (3, 3, 0, 5) = (3, 3, 3, 8) /\
  (3 = 3 \/ 8 = 3) /\
  face_trace (env_of rgb [(3, 3, 0, 5)]) rgb the_embedder the_database
    (3, 3, 0, 5) = [] /\
  resultado_de (env_of rgb [(3, 3, 0, 5)]) rgb the_embedder the_database
    (3, 3, 0, 5) = error_entry [3; 3; 0; 5] /\
  exists rs,
    reconocer (env_of rgb [(3, 3, 0, 5)]) "" warm =
      (warm,
       [] ++ EvRequest :: EvDetect rgb
          :: flat_map (face_trace (env_of rgb [(3, 3, 0, 5)]) rgb
                         the_embedder the_database) [(3, 3, 0, 5)],
       Some (Success rs)) /\
    rs = map (resultado_de (env_of rgb [(3, 3, 0, 5)]) rgb the_embedder
                the_database) [(3, 3, 0, 5)] /\
    In (error_entry [3; 3; 0; 5]) rs.
Proof.
  assert (H1 : getters (env_of rgb [(3, 3, 0, 5)]) warm =
               (warm, [], Some (Some the_detector, Some the_embedder,
                                Some the_database))) by reflexivity.
  assert (H2 : decode_request (env_of rgb [(3, 3, 0, 5)]) "" = Some rgb)
    by reflexivity.
  assert (H3 : detect_faces (env_of rgb [(3, 3, 0, 5)]) the_detector rgb
               = Some [(3, 3, 0, 5)]) by reflexivity.
  assert (H4 : In (3, 3, 0, 5) [(3, 3, 0, 5)]) by (left; reflexivity).
  assert (H5 : clip rgb (3, 3, 0, 5) = (3, 3, 3, 8)) by reflexivity.
  assert (H6 : 3 = 3 \/ 8 = 3) by (left; reflexivity).
  repeat (split; [assumption|]).
  exact (zero_area_face_is_error (env_of rgb [(3, 3, 0, 5)]) "" warm warm []
           the_detector the_embedder the_database rgb [(3, 3, 0, 5)]
           3 3 0 5 3 3 3 8 H1 H2 H3 H4 H5 H6).
Defined.

(** C9 fails as stated: of the two detections only [(1, 1, 4, 4)] survives
    the clipping, and the output holds two entries. *)
Lemma zero_area_detection_counted :
  filter (survives rgb) [(1, 1, 4, 4); (3, 3, 0, 5)] = [(1, 1, 4, 4)] /\
  snd (reconocer (env_of rgb [(1, 1, 4, 4); (3, 3, 0, 5)]) "" warm)
    = Some (Success [alice_entry [1; 1; 4; 4]; error_entry [3; 3; 0; 5]]).
Proof. split; reflexivity. Qed.

(** C9 as amended, at the detections [(1, 1, 4, 4)] and [(3, 3, 0, 5)]. *)
Lemma one_result_per_detection_witness :
  getters (env_of rgb [(1, 1, 4, 4); (3, 3, 0, 5)]) warm =
    (warm, [], Some (Some the_detector, Some the_embedder, Some the_database)) /\
  decode_request (env_of rgb [(1, 1, 4, 4); (3, 3, 0, 5)]) "" = Some rgb /\
  detect_faces (env_of rgb [(1, 1, 4, 4); (3, 3, 0, 5)]) the_detector rgb
    = Some [(1, 1, 4, 4); (3, 3, 0, 5)] /\
  exists t rs,
    reconocer (env_of rgb [(1, 1, 4, 4); (3, 3, 0, 5)]) "" warm
      = (warm, t, Some (Success rs)) /\
    List.length rs = List.length [(1, 1, 4, 4); (3, 3, 0, 5)] /\
    (forall i x y w h,
       nth_error [(1, 1, 4, 4); (3, 3, 0, 5)] i = Some (x, y, w, h) ->
       exists r,
         nth_error rs i = Some r /\
         r = resultado_de (env_of rgb [(1, 1, 4, 4); (3, 3, 0, 5)]) rgb
               the_embedder the_database (x, y, w, h) /\
         bbox r = [Z.max 0 x; Z.max 0 y; w; h]) /\
    ([(1, 1, 4, 4); (3, 3, 0, 5)] = [] -> rs = []).
Proof.
  repeat (split; [reflexivity|]).
  apply (one_result_per_detection (env_of rgb [(1, 1, 4, 4); (3, 3, 0, 5)])
           "" warm warm [] the_detector the_embedder the_database rgb
           [(1, 1, 4, 4); (3, 3, 0, 5)]); reflexivity.
Defined.

(** C10, at the detection [(6, 7, 8, 9)] on a 10 x 10 image. *)
Lemma reported_bbox_witness :
  getters (env_of rgb [(6, 7, 8, 9)]) warm =
    (warm, [], Some (Some the_detector, Some the_embedder, Some the_database)) /\
  decode_request (env_of rgb [(6, 7, 8, 9)]) "" = Some rgb /\
  detect_faces (env_of rgb [(6, 7, 8, 9)]) the_detector rgb
    = Some [(6, 7, 8, 9)] /\
  exists t rs,
    reconocer (env_of rgb [(6, 7, 8, 9)]) "" warm
      = (warm, t, Some (Success rs)) /\
    map bbox rs = [[6; 7; 8; 9]].
Proof.
  repeat (split; [reflexivity|]).
  destruct (reported_bbox (env_of rgb [(6, 7, 8, 9)]) "" warm warm []
              the_detector the_embedder the_database rgb [(6, 7, 8, 9)]
              eq_refl eq_refl eq_refl) as [(t & rs & Hr & Hb) _].
  exists t, rs. split; [exact Hr | exact Hb].
Defined.

(** C5 fails as stated: a request that decodes to a grayscale array has the
    detector invoked on that two-dimensional array. *)
Lemma detector_gets_gray :
  ndim gray = 2 /\ chans gray = None /\
  decode_request (env_of gray [(1, 1, 4, 4)]) "" = Some gray /\
  exists rest,
    snd (fst (reconocer (env_of gray [(1, 1, 4, 4)]) "" warm))
      = EvRequest :: EvDetect gray :: rest.
Proof. repeat split. eexists. reflexivity. Qed.

(** C5 as amended, at a grayscale 10 x 10 image with the detection
    [(1, 1, 4, 4)]. *)
Lemma rgb_conversion_is_per_face_witness :
  getters (env_of gray [(1, 1, 4, 4)]) warm =
    (warm, [], Some (Some the_detector, Some the_embedder, Some the_database)) /\
  decode_request (env_of gray [(1, 1, 4, 4)]) "" = Some gray /\
  detect_faces (env_of gray [(1, 1, 4, 4)]) the_detector gray
    = Some [(1, 1, 4, 4)] /\
  In (1, 1, 4, 4) [(1, 1, 4, 4)] /\
  is_empty (face_img gray (1, 1, 4, 4)) = false /\
  (ndim (face_img gray (1, 1, 4, 4)) = 2 \/
   chans (face_img gray (1, 1, 4, 4)) = Some 4%nat) /\
  In (dtype gray) [np_uint8; np_uint16; np_float32] /\
  (exists rs,
     reconocer (env_of gray [(1, 1, 4, 4)]) "" warm =
       (warm,
        [] ++ EvRequest :: EvDetect gray
           :: flat_map (face_trace (env_of gray [(1, 1, 4, 4)]) gray
                          the_embedder the_database) [(1, 1, 4, 4)],
        Some (Success rs))) /\
  exists img',
    ensure_rgb (face_img gray (1, 1, 4, 4)) = Some img' /\
    chans img' = Some 3%nat /\
    rows img' = 4%nat /\ cols img' = 4%nat /\
    dtype img' = np_uint8 /\
    face_trace (env_of gray [(1, 1, 4, 4)]) gray the_embedder the_database
      (1, 1, 4, 4) = [EvEmbed (resized img')].
Proof.
  assert (Hin : In (1, 1, 4, 4) [(1, 1, 4, 4)]) by (left; reflexivity).
  assert (Hne : is_empty (face_img gray (1, 1, 4, 4)) = false) by reflexivity.
  assert (Hfmt : ndim (face_img gray (1, 1, 4, 4)) = 2 \/
                 chans (face_img gray (1, 1, 4, 4)) = Some 4%nat)
    by (left; reflexivity).
  assert (Hdepth : In (dtype gray) [np_uint8; np_uint16; np_float32])
    by (left; reflexivity).
  repeat (split; [first [reflexivity | assumption]|]).
  destruct (rgb_conversion_is_per_face (env_of gray [(1, 1, 4, 4)]) "" warm
              warm [] the_detector the_embedder the_database gray
              [(1, 1, 4, 4)] eq_refl eq_refl eq_refl)
    as (Hrun & Hface & _).
  split; [exact Hrun|].
  destruct (Hface (1, 1, 4, 4) Hin Hne Hfmt Hdepth)
    as (img' & He & Hc & Hr & Hcl & Hdt & _ & Ht).
  exists img'. repeat split; auto.
Defined.

(** A request that decodes to the boolean array of a mode-1 image: the
    conversion of the face raises, the embedder is not invoked and the entry
    is [("Error", inf)]. *)
Lemma mode1_face_is_error :
  ndim mode1 = 2 /\ dtype mode1 = np_bool /\
  is_empty (face_img mode1 (1, 1, 4, 4)) = false /\
  reconocer (env_of mode1 [(1, 1, 4, 4)]) "" warm
  = (warm, [EvRequest; EvDetect mode1],
     Some (Success [error_entry [1; 1; 4; 4]])).
Proof. repeat split. Qed.

(** C7, at three detections of which the second, [(3, 3, 0, 5)], crops to
    an empty region. *)
Lemma one_bad_face_witness :
  getters (env_of rgb ([(1, 1, 4, 4)] ++ (3, 3, 0, 5) :: [(2, 2, 5, 5)])) warm
    = (warm, [],
       Some (Some the_detector, Some the_embedder, Some the_database)) /\
  face_fails (env_of rgb ([(1, 1, 4, 4)] ++ (3, 3, 0, 5) :: [(2, 2, 5, 5)]))
    rgb the_embedder the_database (3, 3, 0, 5) = true /\
  face_fails (env_of rgb ([(1, 1, 4, 4)] ++ (3, 3, 0, 5) :: [(2, 2, 5, 5)]))
    rgb the_embedder the_database (1, 1, 4, 4) = false /\
  face_fails (env_of rgb ([(1, 1, 4, 4)] ++ (3, 3, 0, 5) :: [(2, 2, 5, 5)]))
    rgb the_embedder the_database (2, 2, 5, 5) = false /\
  exists t rs,
    reconocer (env_of rgb ([(1, 1, 4, 4)] ++ (3, 3, 0, 5) :: [(2, 2, 5, 5)]))
      "" warm = (warm, t, Some (Success rs)) /\
    List.length rs = 3%nat /\
    List.length (filter is_error rs) = 1%nat /\
    (exists r,
       nth_error rs 1 = Some r /\
       nombre r = "Error"%string /\ distancia r = inf).
Proof.
  repeat (split; [reflexivity|]).
  destruct (one_bad_face
              (env_of rgb ([(1, 1, 4, 4)] ++ (3, 3, 0, 5) :: [(2, 2, 5, 5)]))
              "" warm warm [] the_detector the_embedder the_database rgb
              [(1, 1, 4, 4)] [(2, 2, 5, 5)] (3, 3, 0, 5)
              eq_refl eq_refl eq_refl eq_refl)
    as (t & rs & Hrun & Hlen & Hcount & Hbad & _).
  - intros box [<- | [<- | []]]; reflexivity.
  - exists t, rs. auto.
Defined.

(** C4 fails as stated: called with the three capabilities unset,
    [reconocer] loads them, reads the request and answers with success; and
    when the detector cannot be loaded the answer is the generic failure. *)
Lemma unset_slots_are_loaded :
  detector initial = None /\ embedder initial = None /\
  database initial = None /\
  reconocer (env_of rgb []) "" initial =
    ({| detector := Some {| det_id := 0; det_preloaded := false |};
        embedder := Some {| emb_id := 1 |};
        database := Some {| db_id := 2; db_items := store_ab |};
        models_loaded := false;
        next_id := 3 |},
     [EvInit SlotDetector 0; EvInit SlotEmbedder 1; EvInit SlotDatabase 2;
      EvRequest; EvDetect rgb],
     Some (Success [])) /\
  reconocer env_broken "" initial = (initial, [], Some Failure).
Proof. repeat split. Qed.

(** C4 as amended, in a process whose [database.pkl] holds [None]: the 503
    reply is given, and before the request is read. *)
Lemma not_ready_reply_witness :
  snd (reconocer env_null "" initial) = Some (NotReady true true false) /\
  database initial = None /\
  pickle_load env_null = Some None /\
  ~ In EvRequest (snd (fst (reconocer env_null "" initial))).
Proof.
  assert (H : snd (reconocer env_null "" initial)
              = Some (NotReady true true false)) by reflexivity.
  destruct (not_ready_reply env_null "" initial) as (_ & _ & _ & H4).
  destruct (H4 true true false H) as (_ & _ & _ & Hdb & Hp & Hreq & _).
  auto.
Defined.

(** C3 on the code, in a process whose loaders work. *)
Lemma preload_rebuilds_detector_witness :
  mtcnn_loads (env_of rgb []) = true /\
  inits SlotDetector
    (trace (run (env_of rgb []) [Get SlotDetector; Bg; Get SlotDetector]
              boot)) = 2%nat /\
  seen SlotDetector
    (observed (run (env_of rgb []) [Get SlotDetector; Bg; Get SlotDetector]
                 boot))
    = [Some 0%nat; Some 1%nat] /\
  detector (globals (run (env_of rgb []) [Get SlotDetector] boot))
    = Some {| det_id := 0; det_preloaded := false |} /\
  detector (globals (run (env_of rgb []) [Get SlotDetector; Bg] boot))
    = Some {| det_id := 1; det_preloaded := true |}.
Proof.
  split; [reflexivity|].
  exact (preload_rebuilds_detector (env_of rgb []) eq_refl).
Defined.

(** * Further properties *)

Import Calls Http Enrol Samples.

(** ** The cache under any schedule *)

Ltac run_one_action env :=
  cbv beta iota zeta delta
    [run_action getter load_models_step preload_detector preload_database
     preload_embedder new_MTCNN new_FaceNet new_database get_detector
     get_embedder get_database try_except bindM read lift ret raise emit
     fresh set_detector set_embedder set_database set_models_loaded
     globals pc trace observed detector embedder database models_loaded
     next_id];
  repeat match goal with
         | |- context [mtcnn_loads env] => destruct (mtcnn_loads env)
         | |- context [facenet_loads env] => destruct (facenet_loads env)
         | |- context [pickle_load env] =>
             destruct (pickle_load env) as [[?items|]|]
         end;
  cbn.

Lemma action_keeps_slot (env : Env) (a : action) (c : config) (s : slot) :
  slot_set s (globals c) = true ->
  slot_set s (globals (run_action env c a)) = true.
Proof.
  destruct c as [[sd se sb ml nid] p t obs].
  destruct a as [|s']; [destruct p | destruct s'];
    destruct s, sd as [d|], se as [e|], sb as [b|];
    cbn [slot_set globals detector embedder database is_not_None];
    intros H; try discriminate H;
    run_one_action env; reflexivity.
Qed.

(** X3. Along any schedule of getter calls and background steps, a slot of
    the cache that holds an object keeps holding one. *)
Theorem slot_stays_set (env : Env) (schedule : list action) (c : config)
    (s : slot) :
  slot_set s (globals c) = true ->
  slot_set s (globals (run env schedule c)) = true.
Proof.
  revert c. induction schedule as [|a schedule IH]; intros c H; [exact H|].
  simpl. apply IH. apply action_keeps_slot. exact H.
Qed.

Lemma action_keeps_bg_invariant (env : Env) (a : action) (c : config) :
  bg_invariant c -> bg_invariant (run_action env c a).
Proof.
  destruct c as [[sd se sb ml nid] p t obs].
  unfold bg_invariant.
  destruct a as [|s']; [destruct p | destruct s'; destruct p];
    destruct sd as [d|], se as [e|], sb as [b|];
    cbn [slot_set globals pc detector embedder database models_loaded
         is_not_None detector_preloaded];
    intros H; run_one_action env; intuition (try congruence).
Qed.

Lemma run_keeps_bg_invariant (env : Env) (schedule : list action)
    (c : config) :
  bg_invariant c -> bg_invariant (run env schedule c).
Proof.
  revert c. induction schedule as [|a schedule IH]; intros c H; [exact H|].
  simpl. apply IH. apply action_keeps_bg_invariant. exact H.
Qed.

Lemma bg_done_or_not_loaded (env : Env) (a : action) (c : config) :
  (models_loaded (globals c) = true -> pc c = BgDone) ->
  models_loaded (globals (run_action env c a)) = true ->
  pc (run_action env c a) = BgDone.
Proof.
  destruct c as [[sd se sb ml nid] p t obs].
  destruct a as [|s']; [destruct p | destruct s'; destruct p];
    destruct sd as [d|], se as [e|], sb as [b|];
    cbn [globals pc models_loaded];
    intros H; run_one_action env; intuition (try congruence).
Qed.

Lemma run_done_or_not_loaded (env : Env) (schedule : list action)
    (c : config) :
  (models_loaded (globals c) = true -> pc c = BgDone) ->
  models_loaded (globals (run env schedule c)) = true ->
  pc (run env schedule c) = BgDone.
Proof.
  revert c. induction schedule as [|a schedule IH]; intros c Hc; [exact Hc|].
  simpl. apply IH. apply bg_done_or_not_loaded. exact Hc.
Qed.

(** X4. In every run of the process, whatever the schedule: when
    [models_loaded] is true the background thread has finished, the detector
    in the cache is the one [load_models] built, and the embedder and the
    database are set. *)
Theorem models_loaded_means_preloaded (env : Env) (schedule : list action) :
  models_loaded (globals (run env schedule boot)) = true ->
  pc (run env schedule boot) = BgDone /\
  detector_preloaded (globals (run env schedule boot)) = true /\
  slot_set SlotEmbedder (globals (run env schedule boot)) = true /\
  slot_set SlotDatabase (globals (run env schedule boot)) = true.
Proof.
  intros H.
  assert (Hdone : pc (run env schedule boot) = BgDone)
    by (apply run_done_or_not_loaded; [discriminate | exact H]).
  split; [exact Hdone|].
  pose proof (run_keeps_bg_invariant env schedule boot eq_refl) as Hinv.
  unfold bg_invariant in Hinv. rewrite Hdone in Hinv.
  destruct (Hinv H) as (Hd & Hb & He). auto.
Qed.

Lemma get_keeps_flag (env : Env) (s : slot) (c : config) :
  models_loaded (globals (run_action env c (Get s)))
  = models_loaded (globals c).
Proof.
  destruct c as [[sd se sb ml nid] p t obs].
  destruct s; destruct sd as [d|], se as [e|], sb as [b|];
    run_one_action env; reflexivity.
Qed.

(** X5. Lazy loading never sets [models_loaded]: while only getters run,
    the flag that [status] reports stays false, whatever they load. *)
Theorem lazy_loading_never_sets_flag (env : Env) (schedule : list action) :
  only_getters schedule = true ->
  models_loaded (globals (run env schedule boot)) = false.
Proof.
  intros H.
  assert (G : forall c,
             models_loaded (globals (run env schedule c))
             = models_loaded (globals c)).
  { induction schedule as [|a schedule IH]; intros c; [reflexivity|].
    simpl in H. apply andb_prop in H. destruct H as [Ha Hs].
    destruct a as [|s]; [discriminate|].
    simpl. rewrite (IH Hs). apply get_keeps_flag. }
  rewrite G. reflexivity.
Qed.

(** ** [load_models] and the getters, one call *)

(** X6. [load_models] never raises. Started with the flag unset, it sets
    [models_loaded] exactly when the three loaders work; when MTCNN cannot
    be loaded it changes nothing, and when the database cannot be loaded
    the embedder is left as it was. *)
Theorem load_models_flag (env : Env) (st : State) :
  snd (load_models env st) = Some tt /\
  (models_loaded st = false ->
   (models_loaded (fst (fst (load_models env st))) = true <->
    loaders_work env = true)) /\
  (mtcnn_loads env = false -> load_models env st = (st, [], Some tt)) /\
  ((forall items, pickle_load env <> Some (Some items)) ->
   embedder (fst (fst (load_models env st))) = embedder st).
Proof.
  destruct st as [sd se sb ml nid]. unfold loaders_work.
  cbv beta iota zeta delta
    [load_models preload_detector preload_database preload_embedder
     new_MTCNN new_FaceNet new_database try_except bindM read lift ret raise
     emit fresh set_detector set_embedder set_database set_models_loaded
     detector embedder database models_loaded next_id].
  destruct (mtcnn_loads env), (facenet_loads env),
    (pickle_load env) as [[items|]|]; cbn;
    repeat split; intros; subst; try discriminate; try reflexivity;
    try congruence.
  all: exfalso; eapply H; reflexivity.
Qed.

(** X7. A getter hands out an object exactly when its slot ends up set: a
    load that raises, or a database file that holds [None], leaves the slot
    unset, so the next call loads again. An object that is handed out is
    the one in the slot. *)
Theorem getter_returns_what_is_cached (env : Env) (s : slot) (st : State) :
  (slot_set s (fst (fst (getter env s st))) = true <->
   exists id, snd (getter env s st) = Some (Some id)) /\
  (forall id, snd (getter env s st) = Some (Some id) ->
     slot_id s (fst (fst (getter env s st))) = Some id) /\
  (snd (getter env s st) = None -> getter env s st = (st, [], None)).
Proof.
  destruct st as [sd se sb ml nid].
  destruct s; destruct sd as [d|], se as [e|], sb as [b|];
    cbv beta iota zeta delta
      [getter new_MTCNN new_FaceNet new_database get_detector get_embedder
       get_database bindM read lift ret raise emit fresh set_detector
       set_embedder set_database detector embedder database models_loaded
       next_id];
    repeat match goal with
           | |- context [mtcnn_loads env] => destruct (mtcnn_loads env)
           | |- context [facenet_loads env] => destruct (facenet_loads env)
           | |- context [pickle_load env] =>
               destruct (pickle_load env) as [[?items|]|]
           end;
    cbn; repeat split; intros;
    repeat match goal with
           | H : exists _, _ |- _ => destruct H
           end;
    try discriminate; try congruence; try (eexists; reflexivity).
Qed.

(** ** One request *)

Lemma face_trace_shape (env : Env) (arr : ndarray) (emb : Embedder)
    (db : Database) (box : Z * Z * Z * Z) :
  face_trace env arr emb db box = [] \/
  exists face, face_trace env arr emb db box = [EvEmbed face].
Proof.
  unfold face_trace, persona_outcome, reconocer_persona,
    reconocer_persona_try, try_except, bindM, lift, emit, ret.
  destruct (ensure_rgb (face_img arr box)) as [img|]; simpl; [|left; reflexivity].
  destruct (cv2_resize env img) as [face|]; simpl; [|left; reflexivity].
  right. exists face.
  destruct (embeddings env emb face) as [v|]; simpl; [|reflexivity].
  destruct (closest_match Np.norm_sub umbral_default v (db_items db));
    reflexivity.
Qed.

Lemma faces_count (env : Env) (arr : ndarray) (emb : Embedder)
    (db : Database) (dets : list (Z * Z * Z * Z)) :
  count is_init (flat_map (face_trace env arr emb db) dets) = 0%nat /\
  count is_detect (flat_map (face_trace env arr emb db) dets) = 0%nat /\
  (count is_embed (flat_map (face_trace env arr emb db) dets)
   <= List.length dets)%nat.
Proof.
  unfold count. induction dets as [|box dets (Hi & Hd & He)]; simpl.
  - auto.
  - rewrite !filter_app, !length_app, Hi, Hd.
    destruct (face_trace_shape env arr emb db box) as [-> | [face ->]];
      simpl; repeat split; lia.
Qed.

(** X8. With the three capabilities in the cache, a request leaves the
    globals as they are and builds no object, whatever it answers. *)
Theorem warm_request_keeps_cache (env : Env) (body : string) (st : State) :
  all_set st = true ->
  fst (fst (reconocer env body st)) = st /\
  count is_init (snd (fst (reconocer env body st))) = 0%nat.
Proof.
  destruct st as [[d|] [e|] [b|] ml nid]; try discriminate. intros _.
  rewrite reconocer_getters.
  rewrite (getters_warm env
             {| detector := Some d; embedder := Some e; database := Some b;
                models_loaded := ml; next_id := nid |} d e b
             eq_refl eq_refl eq_refl).
  destruct (decode_request env body) as [arr|]; [|split; reflexivity].
  destruct (detect_faces env d arr) as [dets|]; [|split; reflexivity].
  split; [reflexivity|]. simpl.
  destruct (faces_count env arr e b dets) as (Hi & _). exact Hi.
Qed.

(** X9. In a process whose loaders work, a request during which no other
    thread takes a step (no step of [load_models] and no getter call of
    another request between its own three getter calls) loads exactly what
    is missing: afterwards the three slots are set, one object was built for
    each slot that was unset and none for the others, and a slot that was
    set still holds the same object. *)
Theorem request_loads_what_is_missing (env : Env) (body : string)
    (st : State) :
  loaders_work env = true ->
  all_set (fst (fst (reconocer env body st))) = true /\
  count is_init (snd (fst (reconocer env body st))) = unset_slots st /\
  (forall s, slot_set s st = true ->
     slot_id s (fst (fst (reconocer env body st))) = slot_id s st).
Proof.
  unfold loaders_work. intros H.
  apply andb_prop in H. destruct H as [H Hp].
  apply andb_prop in H. destruct H as [Hm Hf].
  destruct (pickle_load env) as [[items|]|] eqn:Hl; try discriminate.
  rewrite reconocer_getters.
  case_getters env st; try discriminate.
  all: try match goal with
           | |- context [decode_request ?e ?b] =>
               destruct (decode_request e b) as [arr|]
           end.
  all: try match goal with
           | |- context [detect_faces ?e ?d ?arr] =>
               destruct (detect_faces e d arr) as [dets|]
           end.
  all: cbn [fst snd]; unfold count, unset_slots;
    rewrite ?filter_app, ?length_app; cbn [filter is_init List.length app].
  all: try match goal with
           | |- context [flat_map (face_trace ?env ?arr ?e ?b) ?dets] =>
               destruct (faces_count env arr e b dets) as (Hi & _);
               unfold count in Hi; rewrite Hi
           end.
  all: (split; [reflexivity|]); (split; [reflexivity|]).
  all: intros [] Hs; try discriminate Hs; reflexivity.
Qed.

(** X10. With the three capabilities in the cache, the answer is the 500
    failure exactly when the request cannot be decoded or the detector
    raises; it is never the 503 reply, and a face that cannot be processed
    never makes the request fail. *)
Theorem failure_reply (env : Env) (body : string) (st : State)
    (d : Detector) (e : Embedder) (db : Database) :
  detector st = Some d -> embedder st = Some e -> database st = Some db ->
  (snd (reconocer env body st) = Some Failure <->
   decode_request env body = None \/
   exists arr,
     decode_request env body = Some arr /\ detect_faces env d arr = None) /\
  (forall arr dets,
     decode_request env body = Some arr ->
     detect_faces env d arr = Some dets ->
     snd (reconocer env body st)
       = Some (Success (map (resultado_de env arr e db) dets))) /\
  (forall a b c, snd (reconocer env body st) <> Some (NotReady a b c)).
Proof.
  intros Hd He Hb.
  rewrite reconocer_getters, (getters_warm env st d e db Hd He Hb).
  destruct (decode_request env body) as [arr|].
  - destruct (detect_faces env d arr) as [dets|] eqn:Hdet; simpl.
    + repeat split; try discriminate.
      * intros [H | (arr' & [= <-] & H)]; congruence.
      * intros arr' dets' [= <-] H. rewrite Hdet in H. injection H as <-.
        reflexivity.
    + repeat split; try discriminate.
      * intros _. right. exists arr. auto.
      * intros arr' dets' [= <-] H. congruence.
  - simpl. repeat split; try discriminate.
    + intros _. left. reflexivity.
Qed.

(** X11. A request invokes the detector at most once. When it answers with
    success it has invoked the detector exactly once and the embedder at
    most once per entry of its answer; otherwise it has not invoked the
    embedder at all. *)
Theorem calls_per_request (env : Env) (body : string) (st : State) :
  (count is_detect (snd (fst (reconocer env body st))) <= 1)%nat /\
  match snd (reconocer env body st) with
  | Some (Success rs) =>
      count is_detect (snd (fst (reconocer env body st))) = 1%nat /\
      (count is_embed (snd (fst (reconocer env body st)))
       <= List.length rs)%nat
  | _ => count is_embed (snd (fst (reconocer env body st))) = 0%nat
  end.
Proof.
  rewrite reconocer_getters.
  case_getters env st.
  all: try match goal with
           | |- context [decode_request ?e ?b] =>
               destruct (decode_request e b) as [arr|]
           end.
  all: try match goal with
           | |- context [detect_faces ?e ?d ?arr] =>
               destruct (detect_faces e d arr) as [dets|]
           end.
  all: cbn [fst snd]; unfold count; cbn [filter app is_detect is_embed];
    try (split; [cbn; lia | reflexivity]).
  all: match goal with
       | |- context [flat_map (face_trace ?env ?arr ?e ?b) ?dets] =>
           destruct (faces_count env arr e b dets) as (_ & Hd & He);
           unfold count in Hd, He
       end.
  all: cbn [List.length]; rewrite ?Hd, ?length_map; repeat split; lia.
Qed.

(** ** The match, beyond the rule *)

(** [y <= x < u], with [y] not a NaN: then [y < u]. *)
Lemma ltb_le_lt (x y u : float) :
  ltb x y = false -> is_nan y = false -> ltb x u = true -> ltb y u = true.
Proof.
  intros Hxy Hy Hxu.
  assert (Hn : ~ rank_lt x y) by (rewrite <- ltb_rank, Hxy; discriminate).
  apply ltb_rank in Hxu. apply ltb_rank. revert Hxu Hn.
  unfold rank_lt, lex_lt.
  assert (Hr : rank y <> None)
    by (destruct y as [|[]| |[]]; simpl in *; congruence).
  destruct (rank x) as [[[a1 a2] a3]|], (rank y) as [[[b1 b2] b3]|],
    (rank u) as [[[c1 c2] c3]|]; try tauto; try congruence; lia.
Qed.

Lemma ltb_asym (x y : float) : ltb x y = true -> ltb y x = false.
Proof.
  intros H. destruct (ltb y x) eqn:E; [|reflexivity].
  pose proof (ltb_trans _ _ _ H E) as Hxx. rewrite ltb_irrefl in Hxx.
  discriminate.
Qed.

(** The result of a scan that found a match is nearest: no candidate is
    strictly nearer. *)
Lemma scanned_nearest (umbral : float) (cands : list (string * float))
    (r : best) :
  scanned umbral cands r -> ltb (snd r) umbral = true ->
  forall c, In c cands -> ltb (snd c) (snd r) = false.
Proof.
  intros [[-> _] | (pre & post & -> & Hru & Hpre & Hpost)] Hr c Hc.
  - simpl in Hr. rewrite ltb_inf_l in Hr. discriminate.
  - apply in_app_or in Hc. destruct Hc as [Hc | [<- | Hc]].
    + destruct (ltb (snd c) umbral) eqn:Hcu.
      * apply ltb_asym. exact (Hpre c Hc Hcu).
      * destruct (ltb (snd c) (snd r)) eqn:E; [|reflexivity].
        rewrite (ltb_trans _ _ _ E Hru) in Hcu. discriminate.
    + apply ltb_irrefl.
    + exact (Hpost c Hc).
Qed.

Lemma scanned_threshold (u u' : float) (cands : list (string * float))
    (r r' : best) :
  scanned u cands r -> ltb (snd r) u = true -> scanned u' cands r' ->
  (ltb (snd r) u' = true -> r' = r) /\
  (ltb (snd r) u' = false -> r' = desconocido).
Proof.
  intros Hs Hr Hs'.
  pose proof (scanned_nearest u cands r Hs Hr) as Hmin.
  destruct Hs as [[-> _] | (pre & post & Hsplit & _ & Hpre & Hpost)].
  { simpl in Hr. rewrite ltb_inf_l in Hr. discriminate. }
  assert (Hrin : In r cands)
    by (rewrite Hsplit; apply in_or_app; right; left; reflexivity).
  split; intros Hru'.
  - destruct Hs' as [[_ Hnone] | (pre' & post' & Hsplit' & Hr'u & Hpre' & Hpost')].
    { rewrite (Hnone r Hrin) in Hru'. discriminate. }
    assert (Hr'in : In r' cands)
      by (rewrite Hsplit'; apply in_or_app; right; left; reflexivity).
    rewrite Hsplit in Hsplit'. apply app_eq_app in Hsplit'.
    destruct Hsplit' as [l [[Hp Hq] | [Hp Hq]]]; destruct l as [|x l].
    + simpl in Hq. injection Hq as Hq _. congruence.
    + (* [r'] comes before [r] *)
      simpl in Hq. injection Hq as <- Hq. exfalso.
      assert (Hr'pre : In r' pre)
        by (rewrite Hp; apply in_or_app; right; left; reflexivity).
      assert (Hrpost : In r post')
        by (rewrite Hq; apply in_or_app; right; left; reflexivity).
      pose proof (Hpost' r Hrpost) as Hnl.
      assert (Hr'u0 : ltb (snd r') u = true)
        by (eapply ltb_le_lt; [exact Hnl | exact (ltb_not_nan _ _ Hr'u) | exact Hr]).
      rewrite (Hpre r' Hr'pre Hr'u0) in Hnl. discriminate.
    + simpl in Hq. injection Hq as Hq _. congruence.
    + (* [r'] comes after [r] *)
      simpl in Hq. injection Hq as <- Hq. exfalso.
      assert (Hrpre : In r pre')
        by (rewrite Hp; apply in_or_app; right; left; reflexivity).
      pose proof (Hpre' r Hrpre Hru') as Hlt.
      rewrite (Hmin r' Hr'in) in Hlt. discriminate.
  - destruct Hs' as [[-> _] | (pre' & post' & Hsplit' & Hr'u & _)];
      [reflexivity|]. exfalso.
    assert (Hr'in : In r' cands)
      by (rewrite Hsplit'; apply in_or_app; right; left; reflexivity).
    assert (H : ltb (snd r) u' = true).
    { eapply ltb_le_lt; [exact (Hmin r' Hr'in) | | exact Hr'u].
      exact (ltb_not_nan _ _ Hr). }
    congruence.
Qed.

Section MatchFacts.

Variable Emb : Type.
Variable norm_sub : Emb -> Emb -> option float.

Lemma distances_join (embedding : Emb) (l1 l2 : list (string * Emb))
    (c1 c2 : list (string * float)) :
  distances norm_sub embedding l1 = Some c1 ->
  distances norm_sub embedding l2 = Some c2 ->
  distances norm_sub embedding (l1 ++ l2) = Some (c1 ++ c2).
Proof.
  revert c1. induction l1 as [|[n e] l1 IH]; intros c1 H1 H2; simpl in *.
  - injection H1 as <-. exact H2.
  - destruct (norm_sub embedding e) as [d|]; simpl in *; [|discriminate].
    destruct (distances norm_sub embedding l1) as [ds|]; simpl in *;
      [|discriminate].
    injection H1 as <-. rewrite (IH ds eq_refl H2). reflexivity.
Qed.

Lemma scan_embs_distances (umbral : float) (embedding : Emb)
    (nombre : string) (emb_list : list Emb) (b r : best) :
  scan_embs norm_sub umbral embedding nombre emb_list b = Some r ->
  exists ds,
    distances norm_sub embedding (map (fun e => (nombre, e)) emb_list)
      = Some ds.
Proof.
  revert b. induction emb_list as [|e l IH]; intros b H; simpl in *.
  - exists []. reflexivity.
  - destruct (norm_sub embedding e) as [d|]; simpl in *; [|discriminate].
    destruct (IH _ H) as [ds ->]. simpl. eexists. reflexivity.
Qed.

(** A scan that returns has computed every distance. *)
Lemma scan_store_distances (umbral : float) (embedding : Emb)
    (items : Store Emb) (b r : best) :
  scan_store norm_sub umbral embedding items b = Some r ->
  exists cands,
    distances norm_sub embedding (references items) = Some cands.
Proof.
  revert b. induction items as [|[n l] items IH]; intros b H; simpl in *.
  - exists []. reflexivity.
  - destruct (scan_embs norm_sub umbral embedding n l b) as [b'|] eqn:E;
      simpl in H; [|discriminate].
    destruct (scan_embs_distances _ _ _ _ _ _ E) as [c1 H1].
    destruct (IH _ H) as [c2 H2].
    exists (c1 ++ c2). apply distances_join; assumption.
Qed.

Lemma closest_match_scanned (umbral : float) (embedding : Emb)
    (base_datos : Store Emb) (r : best) :
  closest_match norm_sub umbral embedding base_datos = Some r ->
  exists cands,
    distances norm_sub embedding (references base_datos) = Some cands /\
    scanned umbral cands r.
Proof.
  intros H. destruct (scan_store_distances _ _ _ _ _ H) as [cands Hc].
  exists cands. split; [exact Hc|].
  unfold closest_match in H.
  rewrite (scan_store_fold _ _ _ _ _ desconocido _ Hc) in H.
  injection H as <-. apply fold_step_scanned.
Qed.

(** The label of a match is a key of the store, and its distance is that of
    one of the key's references, below the threshold. *)
Lemma closest_match_provenance (umbral : float) (embedding : Emb)
    (base_datos : Store Emb) (r : best) :
  closest_match norm_sub umbral embedding base_datos = Some r ->
  r = desconocido \/
  exists emb_list e,
    In (fst r, emb_list) base_datos /\ In e emb_list /\
    norm_sub embedding e = Some (snd r) /\ ltb (snd r) umbral = true.
Proof.
  intros H. destruct (closest_match_scanned _ _ _ _ H) as (cands & Hc & Hs).
  destruct Hs as [[-> _] | (pre & post & Hsplit & Hru & _)]; [left; reflexivity|].
  right.
  assert (Hin : In (fst r, snd r) cands).
  { rewrite Hsplit. apply in_or_app. right. left. destruct r; reflexivity. }
  destruct (In_distances _ _ _ _ _ _ _ Hc Hin) as (e & He & Hd).
  apply In_references in He. destruct He as (emb_list & Hitem & Hel).
  exists emb_list, e. auto.
Qed.

(** X13. The threshold decides only between a match and "Desconocido": when
    the match under one threshold is [r], the result under any other
    threshold is [r] again if the distance of [r] is below it, and
    ("Desconocido", +infinity) if not. *)
Theorem threshold_only_gates (u u' : float) (embedding : Emb)
    (base_datos : Store Emb) (r : best) :
  closest_match norm_sub u embedding base_datos = Some r ->
  ltb (snd r) u = true ->
  closest_match norm_sub u' embedding base_datos
    = Some (if ltb (snd r) u' then r else desconocido).
Proof.
  intros H Hr.
  destruct (closest_match_scanned _ _ _ _ H) as (cands & Hc & Hs).
  unfold closest_match.
  rewrite (scan_store_fold _ _ u' _ _ desconocido _ Hc). f_equal.
  pose proof (fold_step_scanned u' cands) as Hs'.
  destruct (scanned_threshold u u' cands r _ Hs Hr Hs') as [Hyes Hno].
  destruct (ltb (snd r) u'); auto.
Qed.

End MatchFacts.

(** X12. [reconocer_persona] always returns a pair. The pair is
    ("Error", +infinity) when the conversion, the resize or the embedder
    raises, or when a distance cannot be computed. In every other case it is
    what the scan finds among the distances from the embedding of this face
    to the references of the database: ("Desconocido", +infinity) when no
    distance is below the threshold, and otherwise the first nearest
    candidate, whose label is a key of the database and whose distance is
    the distance from the embedding of this face to one of that key's
    references, strictly below the threshold. *)
Theorem persona_result_provenance (env : Env) (img : ndarray)
    (emb : Embedder) (db : Database) (umbral : float) (st : State) :
  exists r,
    snd (reconocer_persona env img emb db umbral st) = Some r /\
    match face_embedding env emb img with
    | None => r = error_result
    | Some embedding =>
        match
          distances Np.norm_sub embedding (references (db_items db))
        with
        | None => r = error_result
        | Some cands =>
            scanned umbral cands r /\
            (r = desconocido \/
             exists emb_list e,
               In (fst r, emb_list) (db_items db) /\ In e emb_list /\
               Np.norm_sub embedding e = Some (snd r) /\
               ltb (snd r) umbral = true)
        end
    end.
Proof.
  unfold reconocer_persona, reconocer_persona_try, try_except, bindM, lift,
    emit, ret, face_embedding.
  destruct (ensure_rgb img) as [img'|]; simpl;
    [|exists error_result; auto].
  destruct (cv2_resize env img') as [face|]; simpl;
    [|exists error_result; auto].
  destruct (embeddings env emb face) as [v|]; simpl;
    [|exists error_result; auto].
  destruct (closest_match Np.norm_sub umbral v (db_items db)) as [r|] eqn:E;
    simpl.
  - exists r. split; [reflexivity|].
    destruct (closest_match_scanned _ _ _ _ _ _ E) as (cands & Hc & Hs).
    rewrite Hc. split; [exact Hs|].
    destruct (closest_match_provenance _ _ _ _ _ _ E)
      as [-> | (emb_list & e & H)]; [left; reflexivity|].
    right. exists emb_list, e. exact H.
  - exists error_result. split; [reflexivity|].
    destruct (distances Np.norm_sub v (references (db_items db)))
      as [cands|] eqn:Hc; [|reflexivity].
    unfold closest_match in E.
    rewrite (scan_store_fold _ _ umbral _ _ desconocido _ Hc) in E.
    discriminate.
Qed.

(** ** The cropped region *)

Lemma slice_index_le (len : nat) (i : Z) : (slice_index len i <= len)%nat.
Proof. unfold slice_index. destruct (Z.ltb_spec i 0); lia. Qed.

Lemma slice_index_pos (len : nat) (i : Z) :
  0 <= i -> slice_index len i = Z.to_nat (Z.min i (Z.of_nat len)).
Proof.
  intros H. unfold slice_index. destruct (Z.ltb_spec i 0); [lia|reflexivity].
Qed.

(** The length of the slice [[X : min W (X + w)]] of a sequence of length
    [W]. *)
Lemma slice_length (W X w : Z) :
  0 <= W -> 0 <= X -> 0 <= w ->
  (Z.to_nat (Z.min (Z.min W (X + w)) W) - Z.to_nat (Z.min X W))%nat
  = Z.to_nat (Z.min W (X + w) - X).
Proof.
  intros HW HX Hw.
  destruct (Z.le_ge_cases X W) as [H | H].
  - rewrite (Z.min_l X W H), Z.min_l by lia.
    destruct (Z.le_ge_cases W (X + w)) as [H' | H'].
    + rewrite (Z.min_l _ _ H'). lia.
    + rewrite (Z.min_r _ _ H'). lia.
  - rewrite (Z.min_r X W H), (Z.min_l W (X + w)) by lia.
    rewrite Z.min_id. lia.
Qed.

(** The rows and columns of the crop, for a box of non-negative width and
    height. *)
Lemma face_img_extent (arr : ndarray) (x0 y0 w h : Z) :
  0 <= w -> 0 <= h ->
  rows (face_img arr (x0, y0, w, h))
  = Z.to_nat (Z.min (shape0 arr) (Z.max 0 y0 + h) - Z.max 0 y0) /\
  cols (face_img arr (x0, y0, w, h))
  = Z.to_nat (Z.min (shape1 arr) (Z.max 0 x0 + w) - Z.max 0 x0).
Proof.
  intros Hw Hh. unfold face_img, clip, crop. cbn [rows cols].
  assert (H0 : 0 <= shape0 arr) by (unfold shape0; lia).
  assert (H1 : 0 <= shape1 arr) by (unfold shape1; lia).
  pose proof (Z.le_max_l 0 x0) as Hx. pose proof (Z.le_max_l 0 y0) as Hy.
  rewrite !slice_index_pos
    by (try apply Z.min_glb; try apply Z.add_nonneg_nonneg; assumption).
  fold (shape0 arr) (shape1 arr).
  split; apply slice_length; assumption.
Qed.

(** X14. For a box of non-negative width and height, the region cropped has
    exactly the clipped extents: [x2 - x] columns and [y2 - y] rows (none
    when the difference is negative), with the channels of the image; and
    when the clamped origin lies in the image, its element at row [r] and
    column [c] is the element of the image at row [y + r] and column
    [x + c]. *)
Theorem crop_is_clipped_box (arr : ndarray) (x0 y0 w h : Z) :
  0 <= w -> 0 <= h ->
  let '(x, y, x2, y2) := clip arr (x0, y0, w, h) in
  cols (face_img arr (x0, y0, w, h)) = Z.to_nat (x2 - x) /\
  rows (face_img arr (x0, y0, w, h)) = Z.to_nat (y2 - y) /\
  chans (face_img arr (x0, y0, w, h)) = chans arr /\
  (x <= shape1 arr -> y <= shape0 arr ->
   forall r c k,
     pix (face_img arr (x0, y0, w, h)) r c k
     = pix arr (Z.to_nat y + r) (Z.to_nat x + c) k).
Proof.
  intros Hw Hh.
  destruct (face_img_extent arr x0 y0 w h Hw Hh) as [Hr Hc].
  unfold clip. split; [exact Hc|]. split; [exact Hr|].
  split; [reflexivity|].
  intros Hx Hy r c k. unfold face_img, clip, crop. cbn [pix].
  pose proof (Z.le_max_l 0 x0) as Hx0. pose proof (Z.le_max_l 0 y0) as Hy0.
  rewrite (slice_index_pos (rows arr) (Z.max 0 y0) Hy0).
  rewrite (slice_index_pos (cols arr) (Z.max 0 x0) Hx0).
  fold (shape0 arr) (shape1 arr).
  rewrite (Z.min_l _ _ Hx), (Z.min_l _ _ Hy). reflexivity.
Qed.

(** X15. A box that starts left of the image, or above it, is cropped from
    column 0, or row 0, with its full width [w], or height [h], cut at the
    image size: the part of the box outside the image is not taken off. *)
Theorem crop_from_negative_origin (arr : ndarray) (x0 y0 w h : Z) :
  0 <= w -> 0 <= h ->
  (x0 < 0 ->
   cols (face_img arr (x0, y0, w, h)) = Z.to_nat (Z.min (shape1 arr) w)) /\
  (y0 < 0 ->
   rows (face_img arr (x0, y0, w, h)) = Z.to_nat (Z.min (shape0 arr) h)).
Proof.
  intros Hw Hh.
  destruct (face_img_extent arr x0 y0 w h Hw Hh) as [Hr Hc].
  rewrite Hr, Hc. split; intros H.
  - rewrite (Z.max_l 0 x0) by lia. rewrite Z.add_0_l, Z.sub_0_r. reflexivity.
  - rewrite (Z.max_l 0 y0) by lia. rewrite Z.add_0_l, Z.sub_0_r. reflexivity.
Qed.

(** X16. Whatever the box, negative sizes included, the region cropped is
    no larger than the image and has its channels. *)
Theorem crop_within_image (arr : ndarray) (box : Z * Z * Z * Z) :
  (rows (face_img arr box) <= rows arr)%nat /\
  (cols (face_img arr box) <= cols arr)%nat /\
  chans (face_img arr box) = chans arr.
Proof.
  destruct box as [[[x y] w] h].
  unfold face_img, clip, crop. cbn [rows cols chans].
  split; [|split; [|reflexivity]].
  - pose proof (slice_index_le (rows arr)
                  (Z.min (shape0 arr) (Z.max 0 y + h))). lia.
  - pose proof (slice_index_le (cols arr)
                  (Z.min (shape1 arr) (Z.max 0 x + w))). lia.
Qed.

(** ** Colour conversion, again *)

(** X17. What [ensure_rgb] returns keeps the size of its input and is left
    as it is by a second conversion; a two-dimensional or four-channel input
    comes back with three channels. *)
Theorem ensure_rgb_idempotent (img img' : ndarray) :
  ensure_rgb img = Some img' ->
  ensure_rgb img' = Some img' /\
  rows img' = rows img /\ cols img' = cols img /\
  (ndim img = 2 \/ chans img = Some 4%nat -> chans img' = Some 3%nat).
Proof.
  unfold ensure_rgb, cvtColor_GRAY2RGB, cvtColor_RGBA2RGB, ndim.
  destruct img as [rw cl [[|[|[|[|[|n]]]]]|] dt px];
    cbn [chans rows cols dtype];
    destruct (is_empty _) eqn:E; destruct dt; cbn; intros H;
    try discriminate H; injection H as <-; cbn; rewrite ?E; cbn;
    repeat split; try reflexivity;
    intros [H | H]; try discriminate H; reflexivity.
Qed.

(** ** The request body *)

Lemma split_comma_1_no_comma (s : string) :
  has_comma s = false -> split_comma_1 s = [s].
Proof.
  induction s as [|c s IH]; simpl; [reflexivity|].
  intros H. apply orb_false_iff in H. destruct H as [Hc Hs].
  rewrite Hc, (IH Hs). reflexivity.
Qed.

Lemma split_comma_1_at (p q : string) :
  has_comma p = false ->
  split_comma_1 (p ++ String comma q) = [p; q].
Proof.
  induction p as [|c p IH]; simpl.
  - intros _. reflexivity.
  - intros H. apply orb_false_iff in H. destruct H as [Hc Hp].
    rewrite Hc, (IH Hp). reflexivity.
Qed.

Lemma has_comma_app (p q : string) :
  has_comma (p ++ String comma q) = true.
Proof.
  induction p as [|c p IH]; simpl; [reflexivity|].
  rewrite IH. apply orb_true_r.
Qed.

Lemma split_comma_1_second (s : string) :
  has_comma s = true -> exists p q, split_comma_1 s = [p; q].
Proof.
  induction s as [|c s IH]; simpl; [discriminate|].
  destruct (Ascii.eqb c comma); simpl.
  - intros _. eexists _, _. reflexivity.
  - intros H. destruct (IH H) as (p & q & ->). eexists _, _. reflexivity.
Qed.

(** X18. The index [1] in [image_data.split(",", 1)[1]] is never out of
    range. A body without a comma is passed on as it is, and from a body of
    the form [prefix,payload] whose prefix has no comma the payload is
    passed on: a data URL and its bare base64 text give the same bytes to
    the decoder. *)
Theorem image_payload_of_data_url (image_data : string) :
  (exists payload, image_payload image_data = Some payload) /\
  (has_comma image_data = false ->
   image_payload image_data = Some image_data) /\
  (forall pre payload,
     has_comma pre = false ->
     image_data = (pre ++ String comma payload)%string ->
     image_payload image_data = Some payload) /\
  (forall pre payload,
     has_comma pre = false -> has_comma payload = false ->
     image_data = (pre ++ String comma payload)%string ->
     image_payload image_data = image_payload payload).
Proof.
  unfold image_payload. split; [|split; [|split]].
  - destruct (has_comma image_data) eqn:E; [|eexists; reflexivity].
    destruct (split_comma_1_second _ E) as (p & q & ->).
    exists q. reflexivity.
  - intros ->. reflexivity.
  - intros pre payload Hpre ->.
    rewrite has_comma_app, (split_comma_1_at _ _ Hpre). reflexivity.
  - intros pre payload Hpre Hpay ->.
    rewrite has_comma_app, (split_comma_1_at _ _ Hpre), Hpay. reflexivity.
Qed.

(** ** Enrolment *)

Lemma dict_set_keys (V : Type) (k k' : string) (v : V)
    (d : list (string * V)) :
  In k' (map fst (dict_set k v d)) <-> k' = k \/ In k' (map fst d).
Proof.
  induction d as [|[k0 v0] d IH]; simpl.
  - intuition.
  - destruct (String.eqb_spec k k0) as [-> | Hne]; simpl.
    + intuition.
    + rewrite IH. intuition.
Qed.

Lemma dict_set_NoDup (V : Type) (k : string) (v : V)
    (d : list (string * V)) :
  NoDup (map fst d) -> NoDup (map fst (dict_set k v d)).
Proof.
  induction d as [|[k0 v0] d IH]; simpl; intros H.
  - constructor; [intros [] | constructor].
  - inversion H as [|? ? Hnin Hnd]; subst.
    destruct (String.eqb_spec k k0) as [-> | Hne]; simpl.
    + constructor; assumption.
    + constructor; [|apply IH; exact Hnd].
      rewrite dict_set_keys. intros [-> | Hin]; [congruence | contradiction].
Qed.

Lemma dict_set_In (V : Type) (k k' : string) (v v' : V)
    (d : list (string * V)) :
  In (k', v') (dict_set k v d) -> (k' = k /\ v' = v) \/ In (k', v') d.
Proof.
  induction d as [|[k0 v0] d IH]; simpl.
  - intros [[= <- <-] | []]. left. auto.
  - destruct (String.eqb_spec k k0) as [-> | Hne]; simpl.
    + intros [[= <- <-] | H]; auto.
    + intros [H | H]; [auto|]. destruct (IH H); auto.
Qed.

Lemma scan_images_usable (w : World) (persona : string)
    (imagenes : list string) (found : list Np.vec) :
  scan_images w (path_join dataset_dir persona) (need_rgb persona) imagenes
    found
  = found ++ usable w persona imagenes.
Proof.
  unfold usable. revert found.
  induction imagenes as [|imagen rest IH]; intros found; simpl.
  - rewrite app_nil_r. reflexivity.
  - destruct (skipped imagen); [apply IH|].
    destruct (obtener_embedding w _ (need_rgb persona)) as [emb|].
    + rewrite IH, <- app_assoc. reflexivity.
    + apply IH.
Qed.

Lemma scan_personas_spec (w : World) (personas : list string)
    (acc store : Store Np.vec) :
  scan_personas w personas acc = Some store ->
  NoDup (map fst acc) -> entries_usable w acc ->
  NoDup (map fst store) /\ entries_usable w store /\
  (forall p,
     In p (map fst store) <->
     In p (map fst acc) \/
     (In p personas /\ isdir w (path_join dataset_dir p) = true)).
Proof.
  revert acc. induction personas as [|persona rest IH]; intros acc H Hnd Hus;
    simpl in H.
  - injection H as <-. split; [exact Hnd|]. split; [exact Hus|].
    intros p. simpl. tauto.
  - destruct (isdir w (path_join dataset_dir persona)) eqn:Edir; simpl in H.
    + destruct (listdir w (path_join dataset_dir persona)) as [imagenes|]
        eqn:El; simpl in H; [|discriminate].
      apply IH in H.
      * destruct H as (Hn & Hu & Hk). repeat split; auto.
        -- intros Hp. apply Hk in Hp. rewrite dict_set_keys in Hp.
           simpl. destruct Hp as [[-> | Hp] | [Hp Hd]]; auto.
        -- intros Hp. apply Hk. rewrite dict_set_keys. simpl in Hp.
           destruct Hp as [Hp | [[<- | Hp] Hd]]; auto.
      * apply dict_set_NoDup. exact Hnd.
      * intros p l Hin. apply dict_set_In in Hin.
        destruct Hin as [[-> ->] | Hin]; [|exact (Hus p l Hin)].
        exists imagenes. split; [exact El|].
        apply (scan_images_usable w persona imagenes []).
    + apply IH in H; auto. destruct H as (Hn & Hu & Hk). repeat split; auto.
      * intros Hp. apply Hk in Hp. simpl.
        destruct Hp as [Hp | [Hp Hd]]; auto.
      * intros Hp. apply Hk. simpl in Hp.
        destruct Hp as [Hp | [[<- | Hp] Hd]]; auto. congruence.
Qed.

Lemma create_database_spec (w : World) (store : Store Np.vec) :
  create_database w = Some store ->
  exists personas,
    listdir w dataset_dir = Some personas /\
    NoDup (map fst store) /\ entries_usable w store /\
    (forall p,
       In p (map fst store) <->
       In p personas /\ isdir w (path_join dataset_dir p) = true).
Proof.
  unfold create_database. destruct (facenet_starts w); [|discriminate].
  destruct (listdir w dataset_dir) as [personas|]; simpl; [|discriminate].
  intros H. exists personas. split; [reflexivity|].
  apply scan_personas_spec in H.
  - destruct H as (Hn & Hu & Hk). split; [exact Hn|]. split; [exact Hu|].
    intros p. rewrite Hk. simpl. tauto.
  - constructor.
  - intros p l [].
Qed.

(** X19. The labels of the dict that the script pickles are distinct, and
    they are the entries of [data] that are directories: a directory gets
    its label also when none of its images is usable, and a plain file
    never gets one. *)
Theorem enrolled_labels (w : World) (store : Store Np.vec) :
  create_database w = Some store ->
  exists personas,
    listdir w dataset_dir = Some personas /\
    NoDup (map fst store) /\
    (forall p,
       In p (map fst store) <->
       In p personas /\ isdir w (path_join dataset_dir p) = true).
Proof.
  intros H. destruct (create_database_spec w store H)
    as (personas & Hl & Hn & _ & Hk).
  exists personas. auto.
Qed.

Lemma usable_length (w : World) (persona : string)
    (imagenes : list string) :
  (List.length (usable w persona imagenes) <= List.length imagenes)%nat.
Proof.
  unfold usable. induction imagenes as [|imagen rest IH]; simpl; [lia|].
  rewrite length_app. destruct (skipped imagen); simpl; [lia|].
  destruct (obtener_embedding w _ _); simpl; lia.
Qed.

Lemma In_usable (w : World) (persona : string) (imagenes : list string)
    (e : Np.vec) :
  In e (usable w persona imagenes) <->
  exists imagen,
    In imagen imagenes /\ skipped imagen = false /\
    obtener_embedding w
      (path_join (path_join dataset_dir persona) imagen) (need_rgb persona)
    = Some e.
Proof.
  unfold usable. rewrite in_flat_map. split.
  - intros (imagen & Hin & He). exists imagen.
    destruct (skipped imagen); [destruct He|].
    destruct (obtener_embedding w _ _) as [emb|]; [|destruct He].
    destruct He as [<- | []]. auto.
  - intros (imagen & Hin & Hs & Ho). exists imagen. split; [exact Hin|].
    rewrite Hs, Ho. left. reflexivity.
Qed.

(** X20. The references that the script stores under a label are the
    embeddings of the images of that directory that are not skipped and that
    [obtener_embedding] processes, in listing order: an image that raises is
    left out and the others are kept, so there are at most as many
    references as files. *)
Theorem enrolled_references (w : World) (store : Store Np.vec)
    (persona : string) (l : list Np.vec) :
  create_database w = Some store ->
  In (persona, l) store ->
  exists imagenes,
    listdir w (path_join dataset_dir persona) = Some imagenes /\
    l = usable w persona imagenes /\
    (List.length l <= List.length imagenes)%nat /\
    (forall e,
       In e l <->
       exists imagen,
         In imagen imagenes /\ skipped imagen = false /\
         obtener_embedding w
           (path_join (path_join dataset_dir persona) imagen)
           (need_rgb persona)
         = Some e).
Proof.
  intros H Hin. destruct (create_database_spec w store H)
    as (personas & _ & _ & Hu & _).
  destruct (Hu persona l Hin) as (imagenes & Hl & ->).
  exists imagenes. split; [exact Hl|]. split; [reflexivity|].
  split; [apply usable_length|]. intros e. apply In_usable.
Qed.

(** X21. A match names a person with a usable image: in a database built
    by the script, every label that [closest_match] returns, other than
    "Desconocido", is a directory of [data] at least one of whose images
    was processed, and the distance returned is the distance to the
    embedding of one of them. *)
Theorem match_has_usable_image (w : World) (store : Store Np.vec)
    (umbral : float) (embedding : Np.vec) (r : best) :
  create_database w = Some store ->
  closest_match Np.norm_sub umbral embedding store = Some r ->
  r = desconocido \/
  exists imagenes imagen e,
    isdir w (path_join dataset_dir (fst r)) = true /\
    listdir w (path_join dataset_dir (fst r)) = Some imagenes /\
    In imagen imagenes /\ skipped imagen = false /\
    obtener_embedding w
      (path_join (path_join dataset_dir (fst r)) imagen) (need_rgb (fst r))
    = Some e /\
    Np.norm_sub embedding e = Some (snd r) /\
    ltb (snd r) umbral = true.
Proof.
  intros H Hm.
  destruct (closest_match_provenance _ _ _ _ _ _ Hm)
    as [-> | (emb_list & e & Hitem & He & Hd & Hu)]; [left; reflexivity|].
  right.
  destruct (create_database_spec w store H)
    as (personas & _ & _ & Hus & Hk).
  destruct (Hus _ _ Hitem) as (imagenes & Hl & ->).
  apply In_usable in He. destruct He as (imagen & Hin & Hs & Ho).
  exists imagenes, imagen, e. repeat split; auto.
  apply Hk. apply in_map_iff. exists (fst r, usable w (fst r) imagenes).
  auto.
Qed.

(** ** File names *)

Lemma lower_ascii_idem (c : ascii) : lower_ascii (lower_ascii c) = lower_ascii c.
Proof. destruct c as [[] [] [] [] [] [] [] []]; reflexivity. Qed.

Lemma lower_ascii_dot (c : ascii) :
  Ascii.eqb (lower_ascii c) "." = Ascii.eqb c ".".
Proof. destruct c as [[] [] [] [] [] [] [] []]; reflexivity. Qed.

Lemma lower_idem (s : string) : lower (lower s) = lower s.
Proof.
  induction s as [|c s IH]; simpl; [reflexivity|].
  rewrite lower_ascii_idem, IH. reflexivity.
Qed.

Lemma startswith_dot (s : string) :
  startswith s "." =
  match s with
  | String c _ => Ascii.eqb c "."
  | EmptyString => false
  end.
Proof.
  destruct s as [|c s]; [reflexivity|]. unfold startswith. cbn [prefix].
  destruct (ascii_dec "." c) as [He | Hne].
  - subst c. destruct s; reflexivity.
  - symmetry. apply Ascii.eqb_neq. congruence.
Qed.

Lemma startswith_dot_lower (s : string) :
  startswith (lower s) "." = startswith s ".".
Proof.
  rewrite !startswith_dot. destruct s as [|c s]; [reflexivity|].
  simpl. apply lower_ascii_dot.
Qed.

Lemma skipped_lower (s : string) : skipped (lower s) = skipped s.
Proof.
  unfold skipped. rewrite startswith_dot_lower, lower_idem. reflexivity.
Qed.

Lemma endswith_short (s p : string) :
  (String.length s < String.length p)%nat -> endswith s p = false.
Proof.
  intros H. unfold endswith.
  destruct (Nat.leb_spec (String.length p) (String.length s)); [lia|].
  reflexivity.
Qed.

Lemma endswith_whole (s p : string) :
  String.length s = String.length p -> endswith s p = String.eqb s p.
Proof.
  intros H. unfold endswith. rewrite H, Nat.leb_refl, Nat.sub_diag. simpl.
  f_equal. rewrite <- H. clear H.
  induction s as [|c s IH]; simpl; [reflexivity|]. rewrite IH. reflexivity.
Qed.

Lemma lower_length (s : string) : String.length (lower s) = String.length s.
Proof. induction s as [|c s IH]; simpl; [reflexivity|]. rewrite IH. reflexivity. Qed.

(** A name that is accepted has a stem before its extension. *)
Lemma accepted_length (s : string) :
  skipped s = false -> (5 <= String.length s)%nat.
Proof.
  intros H. destruct (Nat.le_gt_cases 5 (String.length s)) as [|Hlt]; [assumption|].
  exfalso. unfold skipped in H. apply orb_false_iff in H.
  destruct H as [Hdot Hext]. apply negb_false_iff in Hext.
  rewrite (endswith_short (lower s) ".jpeg") in Hext
    by (rewrite lower_length; simpl; lia).
  destruct (Nat.eq_dec (String.length s) 4) as [H4 | Hn4].
  - rewrite !endswith_whole in Hext by (rewrite lower_length; exact H4).
    rewrite <- startswith_dot_lower, startswith_dot in Hdot.
    destruct (lower s) as [|c l]; [discriminate|].
    simpl in Hext. rewrite Hdot in Hext. discriminate.
  - rewrite !endswith_short in Hext by (rewrite lower_length; simpl; lia).
    discriminate.
Qed.

(** X22. The inner loop skips every hidden file and every name that is
    only an extension: a name that is kept has at least five characters.
    Whether a name is skipped does not depend on the case of its
    letters. *)
Theorem skipped_rule (s t : string) :
  (startswith s "." = true -> skipped s = true) /\
  (skipped s = false -> (5 <= String.length s)%nat) /\
  (lower s = lower t -> skipped s = skipped t).
Proof.
  split; [|split].
  - intros H. unfold skipped. rewrite H. reflexivity.
  - apply accepted_length.
  - intros H. rewrite <- (skipped_lower s), <- (skipped_lower t), H.
    reflexivity.
Qed.

(** X23. The script writes [embeddings.pkl] and the application reads
    [database.pkl]: running the script leaves what the application loads as
    it was. In a directory with no [database.pkl], after the script has
    run, a request to an application whose database slot is unset is
    answered with the 500 failure and the slot stays unset. *)
Theorem enrolment_writes_another_file (w : World) (files files' : Files)
    (env : Env) (body : string) (st : State) :
  run_script w files = Some files' ->
  app_pickle_load files' = app_pickle_load files /\
  files' "embeddings.pkl"%string = option_map Some (create_database w) /\
  (app_pickle_load files = None ->
   pickle_load env = app_pickle_load files' ->
   database st = None ->
   snd (reconocer env body st) = Some Failure /\
   database (fst (fst (reconocer env body st))) = None).
Proof.
  unfold run_script, app_pickle_load.
  destruct (create_database w) as [store|]; simpl; [|discriminate].
  intros [= <-]. simpl. split; [reflexivity|]. split; [reflexivity|].
  intros Hnone Hload Hdb. rewrite Hnone in Hload.
  rewrite reconocer_getters.
  destruct st as [sd se sb ml nid]. simpl in Hdb. subst sb.
  unfold getters, bindM.
  rewrite get_detector_run. cbn [detector].
  destruct sd as [d|]; [|destruct (mtcnn_loads env)]; cbv zeta;
    rewrite ?get_embedder_run; cbn [embedder];
    (destruct se as [e|]; [|destruct (facenet_loads env)]); cbv zeta;
    rewrite ?get_database_run; cbn [database]; rewrite ?Hload;
    split; reflexivity.
Qed.

(** ** [status] after a request *)

(** X24. The handler itself does not assign [models_loaded]: for a request
    during which no step of [load_models] runs, the flag after the request
    is the flag before it, and when such a request was answered with
    success [status] reports the detector, the embedder and the database as
    ready and [models_loaded] as it was before the request. *)
Theorem status_after_request (env : Env) (body : string) (st : State) :
  models_loaded (fst (fst (reconocer env body st))) = models_loaded st /\
  (forall rs,
     snd (reconocer env body st) = Some (Success rs) ->
     snd (status (fst (fst (reconocer env body st))))
     = Some (models_loaded st, true, true, true)).
Proof.
  rewrite reconocer_getters.
  case_getters env st.
  all: try match goal with
           | |- context [decode_request ?e ?b] =>
               destruct (decode_request e b) as [arr|]
           end.
  all: try match goal with
           | |- context [detect_faces ?e ?d ?arr] =>
               destruct (detect_faces e d arr) as [dets|]
           end.
  all: cbn [fst snd models_loaded]; split; [reflexivity|].
  all: intros rs H; try discriminate H; reflexivity.
Qed.

(** ** Further concrete runs *)

(** X1, at three requests for the detector and one for the database. *)
Lemma getters_init_once_witness :
  only_getters lazy_schedule = true /\
  (inits SlotDetector (trace (run (env_of rgb []) lazy_schedule boot))
   <= 1)%nat.
Proof.
  split; [reflexivity|].
  apply (getters_init_once (env_of rgb []) SlotDetector lazy_schedule).
  reflexivity.
Defined.

(** X2, at the first and the last request of that schedule. *)
Lemma getters_same_instance_witness :
  only_getters lazy_schedule = true /\
  In (Some 0%nat)
    (seen SlotDetector (observed (run (env_of rgb []) lazy_schedule boot))) /\
  Some 0%nat = Some 0%nat.
Proof.
  assert (H : only_getters lazy_schedule = true) by reflexivity.
  assert (Hv : In (Some 0%nat)
                 (seen SlotDetector
                    (observed (run (env_of rgb []) lazy_schedule boot))))
    by (left; reflexivity).
  assert (Hw : In (Some 0%nat)
                 (seen SlotDetector
                    (observed (run (env_of rgb []) lazy_schedule boot))))
    by (right; right; left; reflexivity).
  split; [exact H|]. split; [exact Hv|].
  exact (getters_same_instance (env_of rgb []) SlotDetector lazy_schedule
           (Some 0%nat) (Some 0%nat) H Hv Hw).
Defined.

(** X3, at a process with no [database.pkl] whose database slot is set. *)
Lemma slot_stays_set_witness :
  slot_set SlotDatabase (globals warm_config) = true /\
  slot_set SlotDatabase
    (globals (run env_nofile [Bg; Get SlotDatabase; Bg; Bg] warm_config))
  = true.
Proof.
  split; [reflexivity|].
  apply (slot_stays_set env_nofile [Bg; Get SlotDatabase; Bg; Bg]
           warm_config SlotDatabase).
  reflexivity.
Defined.

(** X4, at a run in which a request loads the embedder before the
    background thread does. *)
Lemma models_loaded_means_preloaded_witness :
  models_loaded (globals (run (env_of rgb []) preload_schedule boot)) = true /\
  pc (run (env_of rgb []) preload_schedule boot) = BgDone /\
  detector_preloaded (globals (run (env_of rgb []) preload_schedule boot))
  = true /\
  slot_set SlotEmbedder (globals (run (env_of rgb []) preload_schedule boot))
  = true /\
  slot_set SlotDatabase (globals (run (env_of rgb []) preload_schedule boot))
  = true.
Proof.
  split; [reflexivity|].
  apply (models_loaded_means_preloaded (env_of rgb []) preload_schedule).
  reflexivity.
Defined.

(** X5, at a schedule of requests that loads the detector and the
    database. *)
Lemma lazy_loading_never_sets_flag_witness :
  only_getters lazy_schedule = true /\
  models_loaded (globals (run (env_of rgb []) lazy_schedule boot)) = false.
Proof.
  split; [reflexivity|].
  apply (lazy_loading_never_sets_flag (env_of rgb []) lazy_schedule).
  reflexivity.
Defined.

(** X8, at a request with one face on the globals that [load_models]
    left. *)
Lemma warm_request_keeps_cache_witness :
  all_set warm = true /\
  fst (fst (reconocer (env_of rgb [box_left]) "" warm)) = warm /\
  count is_init (snd (fst (reconocer (env_of rgb [box_left]) "" warm)))
  = 0%nat.
Proof.
  split; [reflexivity|].
  apply (warm_request_keeps_cache (env_of rgb [box_left]) "" warm).
  reflexivity.
Defined.

(** X9, at the first request of a process, before anything is loaded and
    with no other thread running. *)
Lemma request_loads_what_is_missing_witness :
  loaders_work (env_of rgb [box_left]) = true /\
  all_set (fst (fst (reconocer (env_of rgb [box_left]) "" initial))) = true /\
  count is_init (snd (fst (reconocer (env_of rgb [box_left]) "" initial)))
  = unset_slots initial /\
  (forall s, slot_set s initial = true ->
     slot_id s (fst (fst (reconocer (env_of rgb [box_left]) "" initial)))
     = slot_id s initial).
Proof.
  split; [reflexivity|].
  apply (request_loads_what_is_missing (env_of rgb [box_left]) "" initial).
  reflexivity.
Defined.

(** X10, at a request with one face on the globals that [load_models]
    left. *)
Lemma failure_reply_witness :
  detector warm = Some the_detector /\
  embedder warm = Some the_embedder /\
  database warm = Some the_database /\
  (snd (reconocer (env_of rgb [box_left]) "" warm) = Some Failure <->
   decode_request (env_of rgb [box_left]) "" = None \/
   exists arr,
     decode_request (env_of rgb [box_left]) "" = Some arr /\
     detect_faces (env_of rgb [box_left]) the_detector arr = None) /\
  (forall arr dets,
     decode_request (env_of rgb [box_left]) "" = Some arr ->
     detect_faces (env_of rgb [box_left]) the_detector arr = Some dets ->
     snd (reconocer (env_of rgb [box_left]) "" warm)
       = Some (Success
                 (map (resultado_de (env_of rgb [box_left]) arr the_embedder
                         the_database) dets))) /\
  (forall a b c,
     snd (reconocer (env_of rgb [box_left]) "" warm)
     <> Some (NotReady a b c)).
Proof.
  split; [reflexivity|]. split; [reflexivity|]. split; [reflexivity|].
  apply (failure_reply (env_of rgb [box_left]) "" warm the_detector
           the_embedder the_database); reflexivity.
Defined.

(** X13, at the probe [v1], with the threshold lowered from 0.8 to 0: the
    match at distance 0 becomes "Desconocido". *)
Lemma threshold_only_gates_witness :
  closest_match Np.norm_sub umbral_default v1 store_ab
    = Some ("alice"%string, zero) /\
  ltb (snd ("alice"%string, zero)) umbral_default = true /\
  closest_match Np.norm_sub zero v1 store_ab
    = Some (if ltb (snd ("alice"%string, zero)) zero
            then ("alice"%string, zero) else desconocido).
Proof.
  split; [reflexivity|]. split; [reflexivity|].
  apply (threshold_only_gates Np.vec Np.norm_sub umbral_default zero v1
           store_ab ("alice"%string, zero)); reflexivity.
Defined.

(** X14, at the box [(-2, 3, 5, 20)] on a 10 x 10 image. *)
Lemma crop_is_clipped_box_witness :
  0 <= 5 /\ 0 <= 20 /\
  let '(x, y, x2, y2) := clip rgb box_left in
  cols (face_img rgb box_left) = Z.to_nat (x2 - x) /\
  rows (face_img rgb box_left) = Z.to_nat (y2 - y) /\
  chans (face_img rgb box_left) = chans rgb /\
  (x <= shape1 rgb -> y <= shape0 rgb ->
   forall r c k,
     pix (face_img rgb box_left) r c k
     = pix rgb (Z.to_nat y + r) (Z.to_nat x + c) k).
Proof.
  split; [lia|]. split; [lia|].
  apply (crop_is_clipped_box rgb (-2) 3 5 20); lia.
Defined.

(** X15, at the same box: five columns are taken from column 0, where the
    box covers three. *)
Lemma crop_from_negative_origin_witness :
  0 <= 5 /\ 0 <= 20 /\
  (-2 < 0 ->
   cols (face_img rgb box_left) = Z.to_nat (Z.min (shape1 rgb) 5)) /\
  (3 < 0 ->
   rows (face_img rgb box_left) = Z.to_nat (Z.min (shape0 rgb) 20)).
Proof.
  split; [lia|]. split; [lia|].
  apply (crop_from_negative_origin rgb (-2) 3 5 20); lia.
Defined.

(** X17, at a grayscale image. *)
Lemma ensure_rgb_idempotent_witness :
  ensure_rgb gray = Some gray_rgb /\
  ensure_rgb gray_rgb = Some gray_rgb /\
  rows gray_rgb = rows gray /\
  cols gray_rgb = cols gray /\
  (ndim gray = 2 \/ chans gray = Some 4%nat ->
   chans gray_rgb = Some 3%nat).
Proof.
  split; [reflexivity|].
  apply (ensure_rgb_idempotent gray gray_rgb).
  reflexivity.
Defined.

(** X19, at a [data] directory with two persons and a stray file. *)
Lemma enrolled_labels_witness :
  create_database sample_world = Some sample_store /\
  exists personas,
    listdir sample_world dataset_dir = Some personas /\
    NoDup (map fst sample_store) /\
    (forall p,
       In p (map fst sample_store) <->
       In p personas /\ isdir sample_world (path_join dataset_dir p) = true).
Proof.
  split; [reflexivity|].
  apply (enrolled_labels sample_world sample_store). reflexivity.
Defined.

(** X20, at alice, one of whose four files is a picture that opens. *)
Lemma enrolled_references_witness :
  create_database sample_world = Some sample_store /\
  In ("alice"%string, [v1]) sample_store /\
  exists imagenes,
    listdir sample_world (path_join dataset_dir "alice") = Some imagenes /\
    [v1] = usable sample_world "alice" imagenes /\
    (List.length [v1] <= List.length imagenes)%nat /\
    (forall e,
       In e [v1] <->
       exists imagen,
         In imagen imagenes /\ skipped imagen = false /\
         obtener_embedding sample_world
           (path_join (path_join dataset_dir "alice") imagen)
           (need_rgb "alice")
         = Some e).
Proof.
  assert (H : create_database sample_world = Some sample_store)
    by reflexivity.
  assert (Hin : In ("alice"%string, [v1]) sample_store)
    by (left; reflexivity).
  split; [exact H|]. split; [exact Hin|].
  exact (enrolled_references sample_world sample_store "alice" [v1] H Hin).
Defined.

(** X21, at the probe [v1] on the database of that directory. *)
Lemma match_has_usable_image_witness :
  create_database sample_world = Some sample_store /\
  closest_match Np.norm_sub umbral_default v1 sample_store
    = Some ("alice"%string, zero) /\
  (("alice"%string, zero) = desconocido \/
   exists imagenes imagen e,
     isdir sample_world (path_join dataset_dir "alice") = true /\
     listdir sample_world (path_join dataset_dir "alice") = Some imagenes /\
     In imagen imagenes /\ skipped imagen = false /\
     obtener_embedding sample_world
       (path_join (path_join dataset_dir "alice") imagen) (need_rgb "alice")
     = Some e /\
     Np.norm_sub v1 e = Some zero /\
     ltb zero umbral_default = true).
Proof.
  split; [reflexivity|]. split; [reflexivity|].
  apply (match_has_usable_image sample_world sample_store umbral_default v1
           ("alice"%string, zero)); reflexivity.
Defined.

(** X23, at a directory with no pickle file and a process started in it. *)
Lemma enrolment_writes_another_file_witness :
  run_script sample_world no_files = Some files_after /\
  app_pickle_load files_after = app_pickle_load no_files /\
  files_after "embeddings.pkl"%string
  = option_map Some (create_database sample_world) /\
  (app_pickle_load no_files = None ->
   pickle_load env_nofile = app_pickle_load files_after ->
   database initial = None ->
   snd (reconocer env_nofile "" initial) = Some Failure /\
   database (fst (fst (reconocer env_nofile "" initial))) = None).
Proof.
  split; [reflexivity|].
  apply (enrolment_writes_another_file sample_world no_files files_after
           env_nofile "" initial).
  reflexivity.
Defined.
